(** * svelte-toc: the behaviour of [src/lib/Toc.svelte]

    A shallow embedding of the script and of the template guards of the
    table-of-contents component.  Component variables, configuration and
    the part of the browser the script talks to are explicit records; every
    function of the script is a function on these records.  The [open]
    notification sent to the host and the indentation levels of the entries
    ([levels], [minLevel]) are left out. *)

From Stdlib Require Import QArith.
From stdpp Require Import base list strings.

Local Open Scope string_scope.

(** ** JavaScript values *)

(** A JS [number]: an IEEE double is NaN, an infinity or a rational. *)
Inductive number : Type :=
  | NaN
  | NegInf
  | Fin (q : Q)
  | PosInf.

Definition Qlt_bool (x y : Q) : bool :=
  (Qnum x * QDen y <? Qnum y * QDen x)%Z.

(** [x < y]: false as soon as one side is NaN. *)
Definition number_ltb (x y : number) : bool :=
  match x, y with
  | NaN, _ | _, NaN => false
  | NegInf, NegInf => false
  | NegInf, _ => true
  | Fin _, NegInf => false
  | Fin a, Fin b => Qlt_bool a b
  | Fin _, PosInf => true
  | PosInf, _ => false
  end.

(** [x <= y]. *)
Definition number_leb (x y : number) : bool :=
  match x, y with
  | NaN, _ | _, NaN => false
  | NegInf, _ => true
  | Fin _, NegInf => false
  | Fin a, Fin b => Qle_bool a b
  | Fin _, PosInf => true
  | PosInf, PosInf => true
  | PosInf, _ => false
  end.

(** [x > y] and [x >= y]. *)
Definition number_gtb (x y : number) : bool := number_ltb y x.
Definition number_geb (x y : number) : bool := number_leb y x.

(** The mathematical order the comparisons decide. *)
Definition number_lt (x y : number) : Prop :=
  match x, y with
  | NaN, _ | _, NaN => False
  | NegInf, NegInf => False
  | NegInf, _ => True
  | Fin _, NegInf => False
  | Fin a, Fin b => Qlt a b
  | Fin _, PosInf => True
  | PosInf, _ => False
  end.

(** Truthiness of a number: everything but NaN and zero. *)
Definition number_truthy (x : number) : bool :=
  match x with
  | NaN => false
  | Fin q => negb (Qeq_bool q 0)
  | NegInf | PosInf => true
  end.

(** Truthiness of a string: everything but the empty string. *)
Definition string_truthy (s : string) : bool :=
  match s with
  | EmptyString => false
  | String _ _ => true
  end.

(** An array length as a number. *)
Definition number_of_nat (n : nat) : number := Fin (inject_Z (Z.of_nat n)).

(** [x === y] on numbers. *)
Definition number_strict_eqb (x y : number) : bool :=
  match x, y with
  | NaN, _ | _, NaN => false
  | NegInf, NegInf => true
  | Fin a, Fin b => Qeq_bool a b
  | PosInf, PosInf => true
  | _, _ => false
  end.

(** Svelte's [safe_not_equal(a, b)], which is [a != a ? b == b : a !== b]
    on primitives, for possibly [undefined] numbers: an assignment marks a
    variable as changed only when it holds. *)
Definition safe_not_equal (a b : option number) : bool :=
  match a, b with
  | None, None => false
  | None, Some _ => true
  | Some NaN, None => true
  | Some NaN, Some NaN => false
  | Some NaN, Some _ => true
  | Some _, None => true
  | Some x, Some y => negb (number_strict_eqb x y)
  end.

(** ToNumber of a possibly [undefined] number. *)
Definition to_number (x : option number) : number := default NaN x.

(** A function that either returns or throws. *)
Inductive result (A : Type) : Type :=
  | Ok (a : A)
  | Throw (message : string).
Arguments Ok {A} a.
Arguments Throw {A} message.

(** ** The browser *)

(** A reference to a DOM element.  Two references are the same element
    exactly when they are equal. *)
Definition node : Type := nat.

Inductive ScrollBehavior : Type := Auto | Smooth | Instant.

Inductive Event : Type :=
  | MouseEvent (target : node)
  | KeyboardEvent (key : string).

(** [document]: [querySelectorAll] lists the matches in document order and
    throws a SyntaxError on a selector that does not parse. *)
Record Document : Type := {
  querySelectorAll : string -> result (list node)
}.

(** [querySelector] is the first match, or [null]. *)
Definition querySelector (d : Document) (selector : string)
  : result (option node) :=
  match querySelectorAll d selector with
  | Ok matches => Ok (head matches)
  | Throw e => Throw e
  end.

(** A callback scheduled with [setTimeout]: the only one the component
    schedules removes a class from an element. *)
Record Timeout : Type := {
  timeout_node : node;
  timeout_remove : string;
  timeout_delay : number
}.

(** A call of [element.scrollTo({top, behavior})]. *)
Record ScrollTo : Type := {
  scrollTo_element : node;
  scrollTo_top : Q;
  scrollTo_behavior : ScrollBehavior
}.

Record Browser : Type := {
  (** [None] when [typeof document === 'undefined'] (server-side rendering) *)
  document : option Document;
  (** layout: [getBoundingClientRect().top], [offsetTop], [offsetHeight] *)
  rect_top : node -> number;
  offsetTop : node -> Z;
  offsetHeight : node -> Z;
  (** [a.contains(b)] *)
  contains : node -> node -> bool;
  classList : node -> list string;
  (** messages passed to [console.warn], oldest first *)
  console : list string;
  (** calls of [node.scrollIntoView({behavior, block: 'start'})] *)
  scrollIntoView_calls : list (node * ScrollBehavior);
  (** a smooth scroll of the document is being animated *)
  scrolling : bool;
  (** elements have a [scrollTo] method (jsdom's have none) *)
  has_scrollTo : bool;
  (** calls of [scrollTo], oldest first *)
  scrollTo_calls : list ScrollTo;
  (** the fragment of the current URL, with its [#] *)
  location_hash : string;
  (** [location.hash] once the relative URL [url] is the current one: the
      URL parser percent-encodes the fragment *)
  resolve_hash : string -> string;
  (** the URLs passed to [history.replaceState], oldest first *)
  replaceState_calls : list string;
  timeouts : list Timeout;
  (** targets of the live mutation observers *)
  observers : list node
}.

(** ** Configuration and component variables *)

(** The props the script only reads. *)
Record Props : Type := {
  activeHeadingScrollOffset : number;
  breakpoint : number;
  flashClickedHeadingsFor : number;
  (** the caller's function of the element; [None] when a falsy value was
      passed instead of a function *)
  getHeadingIds : option (node -> string);
  headingSelector : string;
  autoHide : bool;
  keepActiveTocItemInView : bool;
  minItems : number;
  scrollBehavior : ScrollBehavior;
  warnOnEmpty : bool
}.

(** [pageBody: string | HTMLElement], and [null] after a failed lookup. *)
Inductive PageBody : Type :=
  | PageBodySelector (selector : string)
  | PageBodyElement (element : node)
  | PageBodyNull.

(** The variables the script or the framework assigns. *)
Record Comp : Type := {
  activeHeading : option node;
  activeTocLi : option node;
  aside : option node;
  desktop : bool;
  headings : list node;
  hide : bool;
  nav : option node;
  open : bool;
  pageBody : PageBody;
  (** [bind:this] leaves [null] where no item is mounted *)
  tocItems : list (option node);
  (** [undefined] until [bind:innerWidth] has run *)
  window_width : option number
}.

Record World : Type := {
  comp : Comp;
  browser : Browser
}.

(** The defaults of the exported props.  The default [getHeadingIds] reads
    [node.id], given here as [element_id]. *)
Definition default_props (element_id : node -> string) : Props := {|
  activeHeadingScrollOffset := Fin 100;
  breakpoint := Fin 1000;
  flashClickedHeadingsFor := Fin 1500;
  getHeadingIds := Some element_id;
  headingSelector := ":is(h2, h3, h4):not(.toc-exclude)";
  autoHide := true;
  keepActiveTocItemInView := true;
  minItems := Fin 0;
  scrollBehavior := Smooth;
  warnOnEmpty := true
|}.

Definition initial_comp : Comp := {|
  activeHeading := None;
  activeTocLi := None;
  aside := None;
  desktop := true;
  headings := [];
  hide := false;
  nav := None;
  open := false;
  pageBody := PageBodySelector "body";
  tocItems := [];
  window_width := None
|}.

(** *** Assignments to component variables *)

Definition set_active (h li : option node) (c : Comp) : Comp := {|
  activeHeading := h;
  activeTocLi := li;
  aside := aside c;
  desktop := desktop c;
  headings := headings c;
  hide := hide c;
  nav := nav c;
  open := open c;
  pageBody := pageBody c;
  tocItems := tocItems c;
  window_width := window_width c
|}.

Definition set_desktop (v : bool) (c : Comp) : Comp := {|
  activeHeading := activeHeading c;
  activeTocLi := activeTocLi c;
  aside := aside c;
  desktop := v;
  headings := headings c;
  hide := hide c;
  nav := nav c;
  open := open c;
  pageBody := pageBody c;
  tocItems := tocItems c;
  window_width := window_width c
|}.

Definition set_headings (v : list node) (c : Comp) : Comp := {|
  activeHeading := activeHeading c;
  activeTocLi := activeTocLi c;
  aside := aside c;
  desktop := desktop c;
  headings := v;
  hide := hide c;
  nav := nav c;
  open := open c;
  pageBody := pageBody c;
  tocItems := tocItems c;
  window_width := window_width c
|}.

Definition set_hide (v : bool) (c : Comp) : Comp := {|
  activeHeading := activeHeading c;
  activeTocLi := activeTocLi c;
  aside := aside c;
  desktop := desktop c;
  headings := headings c;
  hide := v;
  nav := nav c;
  open := open c;
  pageBody := pageBody c;
  tocItems := tocItems c;
  window_width := window_width c
|}.

Definition set_open (v : bool) (c : Comp) : Comp := {|
  activeHeading := activeHeading c;
  activeTocLi := activeTocLi c;
  aside := aside c;
  desktop := desktop c;
  headings := headings c;
  hide := hide c;
  nav := nav c;
  open := v;
  pageBody := pageBody c;
  tocItems := tocItems c;
  window_width := window_width c
|}.

Definition set_pageBody (v : PageBody) (c : Comp) : Comp := {|
  activeHeading := activeHeading c;
  activeTocLi := activeTocLi c;
  aside := aside c;
  desktop := desktop c;
  headings := headings c;
  hide := hide c;
  nav := nav c;
  open := open c;
  pageBody := v;
  tocItems := tocItems c;
  window_width := window_width c
|}.

Definition set_window_width (v : option number) (c : Comp) : Comp := {|
  activeHeading := activeHeading c;
  activeTocLi := activeTocLi c;
  aside := aside c;
  desktop := desktop c;
  headings := headings c;
  hide := hide c;
  nav := nav c;
  open := open c;
  pageBody := pageBody c;
  tocItems := tocItems c;
  window_width := v
|}.


(** ** [set_active_heading] *)

(** [top < activeHeadingScrollOffset]: the viewport scrolled past [h]. *)
Definition scrolled_past (p : Props) (b : Browser) (h : node) : bool :=
  number_ltb (rect_top b h) (activeHeadingScrollOffset p).

(** The [while (idx--)] loop, entered with the value [idx] about to be
    tested.  [0] is falsy and ends the loop; on [S i] the body runs with
    [idx = i]. *)
Fixpoint set_active_heading_loop
    (p : Props) (b : Browser) (idx : nat) (c : Comp) : Comp :=
  match idx with
  | O => c
  | S idx =>
    match headings c !! idx with
    | Some h =>
      if scrolled_past p b h || (idx =? 0)%nat
      then set_active (headings c !! idx) (mjoin (tocItems c !! idx)) c
      else set_active_heading_loop p b idx c
    | None => c (* not reached: [idx < headings.length] throughout *)
    end
  end.

Definition set_active_heading (p : Props) (b : Browser) (c : Comp) : Comp :=
  set_active_heading_loop p b (length (headings c)) c.

(** *** Effects on the browser *)

Definition console_warn (message : string) (b : Browser) : Browser := {|
  document := document b;
  rect_top := rect_top b;
  offsetTop := offsetTop b;
  offsetHeight := offsetHeight b;
  contains := contains b;
  classList := classList b;
  console := console b ++ [message];
  scrollIntoView_calls := scrollIntoView_calls b;
  scrolling := scrolling b;
  has_scrollTo := has_scrollTo b;
  scrollTo_calls := scrollTo_calls b;
  location_hash := location_hash b;
  resolve_hash := resolve_hash b;
  replaceState_calls := replaceState_calls b;
  timeouts := timeouts b;
  observers := observers b
|}.

(** [n.scrollIntoView({behavior, block: 'start'})].  A smooth scroll is
    animated until the browser dispatches [scrollend]. *)
Definition scrollIntoView (n : node) (behavior : ScrollBehavior) (b : Browser)
  : Browser := {|
  document := document b;
  rect_top := rect_top b;
  offsetTop := offsetTop b;
  offsetHeight := offsetHeight b;
  contains := contains b;
  classList := classList b;
  console := console b;
  scrollIntoView_calls := scrollIntoView_calls b ++ [(n, behavior)];
  scrolling := match behavior with Smooth => true | _ => scrolling b end;
  has_scrollTo := has_scrollTo b;
  scrollTo_calls := scrollTo_calls b;
  location_hash := location_hash b;
  resolve_hash := resolve_hash b;
  replaceState_calls := replaceState_calls b;
  timeouts := timeouts b;
  observers := observers b
|}.

(** The browser is about to dispatch [scrollend]: the animation is over. *)
Definition scroll_finished (b : Browser) : Browser := {|
  document := document b;
  rect_top := rect_top b;
  offsetTop := offsetTop b;
  offsetHeight := offsetHeight b;
  contains := contains b;
  classList := classList b;
  console := console b;
  scrollIntoView_calls := scrollIntoView_calls b;
  scrolling := false;
  has_scrollTo := has_scrollTo b;
  scrollTo_calls := scrollTo_calls b;
  location_hash := location_hash b;
  resolve_hash := resolve_hash b;
  replaceState_calls := replaceState_calls b;
  timeouts := timeouts b;
  observers := observers b
|}.

(** [n?.scrollTo?.({top, behavior})] on an element [n]. *)
Definition scrollTo (n : node) (top_ : Q) (behavior : ScrollBehavior)
    (b : Browser) : Browser :=
  if has_scrollTo b then {|
    document := document b;
    rect_top := rect_top b;
    offsetTop := offsetTop b;
    offsetHeight := offsetHeight b;
    contains := contains b;
    classList := classList b;
    console := console b;
    scrollIntoView_calls := scrollIntoView_calls b;
    scrolling := scrolling b;
    has_scrollTo := has_scrollTo b;
    scrollTo_calls := scrollTo_calls b ++
      [{| scrollTo_element := n; scrollTo_top := top_;
          scrollTo_behavior := behavior |}];
    location_hash := location_hash b;
    resolve_hash := resolve_hash b;
    replaceState_calls := replaceState_calls b;
    timeouts := timeouts b;
    observers := observers b
  |} else b.

(** [history.replaceState({}, '', url)] with a fragment-only [url]: the
    fragment of the location is what the URL parser makes of [url]. *)
Definition replaceState (url : string) (b : Browser) : Browser := {|
  document := document b;
  rect_top := rect_top b;
  offsetTop := offsetTop b;
  offsetHeight := offsetHeight b;
  contains := contains b;
  classList := classList b;
  console := console b;
  scrollIntoView_calls := scrollIntoView_calls b;
  scrolling := scrolling b;
  has_scrollTo := has_scrollTo b;
  scrollTo_calls := scrollTo_calls b;
  location_hash := resolve_hash b url;
  resolve_hash := resolve_hash b;
  replaceState_calls := replaceState_calls b ++ [url];
  timeouts := timeouts b;
  observers := observers b
|}.

Definition set_classList (n : node) (classes : list string) (b : Browser)
  : Browser := {|
  document := document b;
  rect_top := rect_top b;
  offsetTop := offsetTop b;
  offsetHeight := offsetHeight b;
  contains := contains b;
  classList := fun m => if decide (m = n) then classes else classList b m;
  console := console b;
  scrollIntoView_calls := scrollIntoView_calls b;
  scrolling := scrolling b;
  has_scrollTo := has_scrollTo b;
  scrollTo_calls := scrollTo_calls b;
  location_hash := location_hash b;
  resolve_hash := resolve_hash b;
  replaceState_calls := replaceState_calls b;
  timeouts := timeouts b;
  observers := observers b
|}.

(** [n.classList.add(cls)]: a token list holds a token once. *)
Definition classList_add (n : node) (cls : string) (b : Browser) : Browser :=
  if bool_decide (cls ∈ classList b n) then b
  else set_classList n (classList b n ++ [cls]) b.

(** [n.classList.remove(cls)] *)
Definition classList_remove (n : node) (cls : string) (b : Browser) : Browser :=
  set_classList n (filter (fun c => c ≠ cls) (classList b n)) b.

(** [setTimeout(() => n.classList.remove(cls), delay)] *)
Definition setTimeout (n : node) (cls : string) (delay : number) (b : Browser)
  : Browser := {|
  document := document b;
  rect_top := rect_top b;
  offsetTop := offsetTop b;
  offsetHeight := offsetHeight b;
  contains := contains b;
  classList := classList b;
  console := console b;
  scrollIntoView_calls := scrollIntoView_calls b;
  scrolling := scrolling b;
  has_scrollTo := has_scrollTo b;
  scrollTo_calls := scrollTo_calls b;
  location_hash := location_hash b;
  resolve_hash := resolve_hash b;
  replaceState_calls := replaceState_calls b;
  timeouts := timeouts b ++
    [{| timeout_node := n; timeout_remove := cls; timeout_delay := delay |}];
  observers := observers b
|}.

(** [new MutationObserver(requery_headings).observe(target, ...)] *)
Definition observe (target : node) (b : Browser) : Browser := {|
  document := document b;
  rect_top := rect_top b;
  offsetTop := offsetTop b;
  offsetHeight := offsetHeight b;
  contains := contains b;
  classList := classList b;
  console := console b;
  scrollIntoView_calls := scrollIntoView_calls b;
  scrolling := scrolling b;
  has_scrollTo := has_scrollTo b;
  scrollTo_calls := scrollTo_calls b;
  location_hash := location_hash b;
  resolve_hash := resolve_hash b;
  replaceState_calls := replaceState_calls b;
  timeouts := timeouts b;
  observers := observers b ++ [target]
|}.

(** ** The script *)

(** How a function of the script ends: it returns, or it throws; either
    way with the world as it has left it. *)
Inductive outcome : Type :=
  | Returned (w : World)
  | Thrown (message : string) (w : World).

Definition with_comp (f : Comp -> Comp) (w : World) : World :=
  {| comp := f (comp w); browser := browser w |}.

Definition with_browser (f : Browser -> Browser) (w : World) : World :=
  {| comp := comp w; browser := f (browser w) |}.

(** [$: desktop = window_width > breakpoint] *)
Definition update_desktop (p : Props) (c : Comp) : Comp :=
  set_desktop (number_gtb (to_number (window_width c)) (breakpoint p)) c.

(** [close]: a click outside of the panel closes it. *)
Definition close (event : Event) (w : World) : World :=
  match event with
  | MouseEvent target =>
    let inside :=
      match aside (comp w) with
      | Some a => contains (browser w) a target
      | None => false (* [undefined?.contains(...)] is [undefined] *)
      end in
    if negb inside then with_comp (set_open false) w else w
  | KeyboardEvent _ => w (* only registered for clicks *)
  end.

(** The message of the [console.warn] in [requery_headings]. *)
Definition empty_warning (p : Props) : string :=
  "svelte-toc found no headings for headingSelector='" +:+ headingSelector p
  +:+ "'. " +:+ (if autoHide p then "Hiding" else "Showing empty")
  +:+ " table of contents.".

Definition requery_headings (p : Props) (w : World) : outcome :=
  match document (browser w) with
  | None => Returned w (* for SSR *)
  | Some d =>
    match querySelectorAll d (headingSelector p) with
    | Throw e => Thrown e w
    | Ok found =>
      let c := set_headings found (comp w) in
      let c := set_active_heading p (browser w) c in
      if (length (headings c) =? 0)%nat then
        let b :=
          if warnOnEmpty p then console_warn (empty_warning p) (browser w)
          else browser w in
        let c := if autoHide p then set_hide true c else c in
        Returned {| comp := c; browser := b |}
      else if hide c && autoHide p then
        Returned {| comp := set_hide false c; browser := browser w |}
      else Returned {| comp := c; browser := browser w |}
    end
  end.

(** What a template literal prints for [pageBody]. *)
Definition PageBody_to_string (pb : PageBody) : string :=
  match pb with
  | PageBodySelector s => s
  | PageBodyElement _ => "[object HTMLElement]"
  | PageBodyNull => "null"
  end.

(** The callback given to [onMount]. *)
Definition onMount (w : World) : outcome :=
  let resolved : outcome :=
    match pageBody (comp w) with
    | PageBodySelector selector =>
      match document (browser w) with
      | None => Thrown "ReferenceError: document is not defined" w
      | Some d =>
        match querySelector d selector with
        | Throw e => Thrown e w
        | Ok found =>
          let pb :=
            match found with
            | Some el => PageBodyElement el
            | None => PageBodyNull
            end in
          let w := with_comp (set_pageBody pb) w in
          match found with
          | None =>
            Thrown ("Could not find page body element: "
                    +:+ PageBody_to_string (pageBody (comp w))) w
          | Some _ => Returned w
          end
        end
      end
    | _ => Returned w
    end in
  match resolved with
  | Thrown e w => Thrown e w
  | Returned w =>
    match pageBody (comp w) with
    | PageBodyElement el => Returned (with_browser (observe el) w)
    | _ =>
      Thrown "TypeError: Failed to execute 'observe' on 'MutationObserver': parameter 1 is not of type 'Node'." w
    end
  end.

(** [[`Enter`, ` `].includes(key)] *)
Definition is_activation_key (key : string) : bool :=
  bool_decide (key ∈ ["Enter"; " "]).

(** [li_click_key_handler(n)(event)] *)
Definition li_click_key_handler (p : Props) (n : node) (event : Event)
    (w : World) : World :=
  let ignored :=
    match event with
    | KeyboardEvent key => negb (is_activation_key key)
    | MouseEvent _ => false
    end in
  if ignored then w else
  let w := with_comp (set_open false) w in
  let w := with_browser (scrollIntoView n (scrollBehavior p)) w in
  (* [getHeadingIds && getHeadingIds(node)]: a falsy [getHeadingIds] is
     itself the falsy [id] *)
  let id := match getHeadingIds p with Some f => f n | None => "" end in
  let w :=
    if string_truthy id then with_browser (replaceState ("#" +:+ id)) w
    else w in
  if number_truthy (flashClickedHeadingsFor p) then
    let w := with_browser (classList_add n "toc-clicked") w in
    with_browser (setTimeout n "toc-clicked" (flashClickedHeadingsFor p)) w
  else w.

(** A timeout expires: its callback runs. *)
Definition run_timeout (t : Timeout) (w : World) : World :=
  with_browser (classList_remove (timeout_node t) (timeout_remove t)) w.

(** [scroll_to_active_toc_item(behavior)] *)
Definition scroll_to_active_toc_item (p : Props) (behavior : ScrollBehavior)
    (w : World) : World :=
  if keepActiveTocItemInView p then
    match activeTocLi (comp w), nav (comp w) with
    | Some li, Some nav_ =>
      (* scroll the active ToC item into the middle of the ToC container *)
      let top_ :=
        (inject_Z (offsetTop (browser w) li)
         - inject_Z (offsetHeight (browser w) nav_) / 2)%Q in
      with_browser (scrollTo nav_ top_ behavior) w
    | _, _ => w
    end
  else w.

(** [$: if (open && nav) { ... }], run when [open] or [nav] changed:
    ensure the active item is in view when the panel opens on mobile. *)
Definition reactive_open_nav (p : Props) (w : World) : World :=
  if open (comp w) && bool_decide (is_Some (nav (comp w))) then
    let w := with_comp (set_active_heading p (browser w)) w in
    scroll_to_active_toc_item p Instant w
  else w.

(** *** [<svelte:window>] *)

Inductive WindowEvent : Type :=
  | Scroll
  | ScrollEnd
  | Click (target : node)
  | Resize (innerWidth : number).

(** [on:scroll={set_active_heading}] *)
Definition on_scroll (p : Props) (w : World) : World :=
  with_comp (set_active_heading p (browser w)) w.

(** [on:scrollend]: wait for scroll end since Chrome does not support
    multiple simultaneous scrolls. *)
Definition on_scrollend (p : Props) (w : World) : World :=
  scroll_to_active_toc_item p Smooth w.

(** [bind:innerWidth={window_width}]: the width is assigned on every
    [resize]; the reactive statement that depends on [window_width] runs
    only when the assignment changed its value. *)
Definition bind_innerWidth (p : Props) (innerWidth : number) (w : World)
  : World :=
  with_comp
    (fun c =>
       let changed := safe_not_equal (window_width c) (Some innerWidth) in
       let c := set_window_width (Some innerWidth) c in
       if changed then update_desktop p c else c) w.

(** The browser dispatches an event to the window; the component's
    listener runs. *)
Definition window_event (p : Props) (ev : WindowEvent) (w : World) : World :=
  match ev with
  | Scroll => on_scroll p w
  | ScrollEnd => on_scrollend p (with_browser scroll_finished w)
  | Click target => close (MouseEvent target) w
  | Resize innerWidth => bind_innerWidth p innerWidth w
  end.

(** A sequence of events, one listener after the other.  The bindings are
    those of [w] throughout: what the framework does to them when the
    template changes is [rebind]. *)
Definition window_events (p : Props) (evs : list WindowEvent) (w : World)
  : World :=
  foldl (fun w ev => window_event p ev w) w evs.

(** *** The template *)

(** [{#if !open && !desktop && headings.length >= minItems}] around the
    button that opens the panel. *)
Definition renders_button (p : Props) (c : Comp) : bool :=
  negb (open c) && negb (desktop c)
  && number_geb (number_of_nat (length (headings c))) (minItems p).

(** [{#if open || (desktop && headings.length >= minItems)}] around [<nav>]. *)
Definition renders_nav (p : Props) (c : Comp) : bool :=
  open c
  || (desktop c && number_geb (number_of_nat (length (headings c))) (minItems p)).



(** ** A sample page

    Three headings (elements 10, 11, 12) with their list items (20, 21, 22),
    the body (1), the navigation container (2) and the panel (3). *)

Definition sample_document : Document := {|
  querySelectorAll := fun selector =>
    if decide (selector = ":is(h2, h3, h4):not(.toc-exclude)")
    then Ok [10; 11; 12]
    else if decide (selector = "body") then Ok [1]
    else if decide (selector = "h2[")
    then Throw "SyntaxError: 'h2[' is not a valid selector"
    else Ok []
|}.

(** The same page without any heading. *)
Definition bare_document : Document := {|
  querySelectorAll := fun selector =>
    if decide (selector = "body") then Ok [1] else Ok []
|}.

Definition sample_browser (d : option Document) : Browser := {|
  document := d;
  rect_top := fun n =>
    match n with
    | 10 => Fin (-50)
    | 11 => Fin 80
    | 12 => Fin (601 # 2)
    | _ => Fin 0
    end;
  offsetTop := fun n =>
    match n with 20 => 0%Z | 21 => 24%Z | 22 => 48%Z | _ => 0%Z end;
  offsetHeight := fun n => match n with 2 => 300%Z | _ => 20%Z end;
  contains := fun a x =>
    match a with
    | 3 => bool_decide (x ∈ [2; 3; 20; 21; 22])
    | _ => bool_decide (x = a)
    end;
  classList := fun _ => [];
  console := [];
  scrollIntoView_calls := [];
  scrolling := false;
  has_scrollTo := true;
  scrollTo_calls := [];
  location_hash := "";
  resolve_hash := fun url => url;
  replaceState_calls := [];
  timeouts := [];
  observers := []
|}.

(** The panel open on a narrow window, the second heading active. *)
Definition sample_comp : Comp := {|
  activeHeading := Some 11;
  activeTocLi := Some 21;
  aside := Some 3;
  desktop := false;
  headings := [10; 11; 12];
  hide := false;
  nav := Some 2;
  open := true;
  pageBody := PageBodyElement 1;
  tocItems := [Some 20; Some 21; Some 22];
  window_width := Some (Fin 500)
|}.

Definition sample_ids (n : node) : string :=
  match n with
  | 10 => "intro"
  | 11 => "usage"
  | _ => ""
  end.

Definition sample_props : Props := default_props sample_ids.

Definition sample_world : World :=
  {| comp := sample_comp; browser := sample_browser (Some sample_document) |}.

(** The page is replaced; layout, logs and pending work stay. *)
Definition set_document (d : option Document) (b : Browser) : Browser := {|
  document := d;
  rect_top := rect_top b;
  offsetTop := offsetTop b;
  offsetHeight := offsetHeight b;
  contains := contains b;
  classList := classList b;
  console := console b;
  scrollIntoView_calls := scrollIntoView_calls b;
  scrolling := scrolling b;
  has_scrollTo := has_scrollTo b;
  scrollTo_calls := scrollTo_calls b;
  location_hash := location_hash b;
  resolve_hash := resolve_hash b;
  replaceState_calls := replaceState_calls b;
  timeouts := timeouts b;
  observers := observers b
|}.

(** The headings have just been removed from the page. *)
Definition emptied_world : World :=
  {| comp := sample_comp; browser := sample_browser (Some bare_document) |}.

(** The same page on a wide window: the panel is shown without having
    been opened. *)
Definition desktop_world : World :=
  {| comp :=
       update_desktop sample_props
         (set_window_width (Some (Fin 1400)) (set_open false sample_comp));
     browser := sample_browser (Some sample_document) |}.

(** Before mount, with a selector for the body that matches nothing. *)
Definition unmounted_world : World :=
  {| comp := set_pageBody (PageBodySelector "#missing") initial_comp;
     browser := sample_browser (Some sample_document) |}.

(** No heading, at least one required, and the panel opened. *)
Definition one_required : Props := {|
  activeHeadingScrollOffset := Fin 100;
  breakpoint := Fin 1000;
  flashClickedHeadingsFor := Fin 1500;
  getHeadingIds := Some sample_ids;
  headingSelector := ":is(h2, h3, h4):not(.toc-exclude)";
  autoHide := true;
  keepActiveTocItemInView := true;
  minItems := Fin 1;
  scrollBehavior := Smooth;
  warnOnEmpty := true
|}.

Definition opened_empty : Comp := set_open true initial_comp.

(** ** The levels of the headings *)

(** [Math.min] of two numbers: NaN as soon as one of them is. *)
Definition number_min (x y : number) : number :=
  match x, y with
  | NaN, _ | _, NaN => NaN
  | _, _ => if number_ltb y x then y else x
  end.

(** [Math.min(...xs)]: [Infinity] without any argument. *)
Definition Math_min (xs : list number) : number := foldr number_min PosInf xs.

(** [$: levels = headings.map(getHeadingLevels)], for the caller's
    [getHeadingLevels]. *)
Definition levels (getHeadingLevels : node -> number) (c : Comp)
  : list number :=
  map getHeadingLevels (headings c).

(** [$: minLevel = Math.min(...levels)] *)
Definition minLevel (getHeadingLevels : node -> number) (c : Comp) : number :=
  Math_min (levels getHeadingLevels c).

(** ** Vocabulary of the further properties *)

(** The timer [li_click_key_handler] sets for the heading [n]. *)
Definition flash_timeout (p : Props) (n : node) : Timeout :=
  {| timeout_node := n; timeout_remove := "toc-clicked";
     timeout_delay := flashClickedHeadingsFor p |}.

Definition is_ScrollEnd (ev : WindowEvent) : bool :=
  match ev with
  | ScrollEnd => true
  | _ => false
  end.

(** What no listener of the window changes between [w] and [w']: the
    headings, the visibility, the page, the log, the class lists, the
    location, the timers, the observers and the scrolls of the document;
    and the panel is not opened. *)
Definition window_frame (w w' : World) : Prop :=
  headings (comp w') = headings (comp w)
  ∧ hide (comp w') = hide (comp w)
  ∧ pageBody (comp w') = pageBody (comp w)
  ∧ document (browser w') = document (browser w)
  ∧ console (browser w') = console (browser w)
  ∧ classList (browser w') = classList (browser w)
  ∧ location_hash (browser w') = location_hash (browser w)
  ∧ timeouts (browser w') = timeouts (browser w)
  ∧ observers (browser w') = observers (browser w)
  ∧ scrollIntoView_calls (browser w') = scrollIntoView_calls (browser w)
  ∧ (open (comp w') = true → open (comp w) = true).

(** What a returning [requery_headings] leaves alone. *)
Definition requery_frame (w w' : World) : Prop :=
  open (comp w') = open (comp w)
  ∧ desktop (comp w') = desktop (comp w)
  ∧ pageBody (comp w') = pageBody (comp w)
  ∧ aside (comp w') = aside (comp w)
  ∧ nav (comp w') = nav (comp w)
  ∧ tocItems (comp w') = tocItems (comp w)
  ∧ window_width (comp w') = window_width (comp w)
  ∧ document (browser w') = document (browser w)
  ∧ classList (browser w') = classList (browser w)
  ∧ location_hash (browser w') = location_hash (browser w)
  ∧ timeouts (browser w') = timeouts (browser w)
  ∧ observers (browser w') = observers (browser w)
  ∧ scrollIntoView_calls (browser w') = scrollIntoView_calls (browser w)
  ∧ scrollTo_calls (browser w') = scrollTo_calls (browser w)
  ∧ scrolling (browser w') = scrolling (browser w).

Local Close Scope string_scope.

(** ** What the claims say, as predicates *)

(** [k] is the index the specification selects in [hs]: no heading after
    [k] has been scrolled past, and [k] itself has been, unless [k] is
    the first heading. *)
Definition is_active_index (p : Props) (b : Browser) (hs : list node)
    (k : nat) : Prop :=
  k < length hs
  ∧ (∀ j h, k < j → hs !! j = Some h → scrolled_past p b h = false)
  ∧ (k = 0 ∨ ∃ h, hs !! k = Some h ∧ scrolled_past p b h = true).

(** The top of [h] is above the threshold: [top < activeHeadingScrollOffset]
    in the order of numbers. *)
Definition above_threshold (p : Props) (b : Browser) (h : node) : Prop :=
  number_lt (rect_top b h) (activeHeadingScrollOffset p).

(** [k] is the index a scan from the last heading to the first selects: no
    heading after [k] is above the threshold, and heading [k] is, unless
    [k] is the first heading. *)
Definition selected_index (p : Props) (b : Browser) (hs : list node)
    (k : nat) : Prop :=
  k < length hs
  ∧ (∀ j h, k < j → hs !! j = Some h → ¬ above_threshold p b h)
  ∧ (k = 0 ∨ ∃ h, hs !! k = Some h ∧ above_threshold p b h).

(** The events [li_click_key_handler] acts on: a click, or a key that is
    Enter or Space. *)
Definition activates (event : Event) : Prop :=
  match event with
  | MouseEvent _ => True
  | KeyboardEvent key => key = "Enter"%string ∨ key = " "%string
  end.

(** The heading count is strictly below the configured minimum. *)
Definition below_minItems (p : Props) (c : Comp) : Prop :=
  number_lt (number_of_nat (length (headings c))) (minItems p).

(** The calls [scroll_to_active_toc_item(behavior)] makes in [w]. *)
Definition active_item_scroll (p : Props) (behavior : ScrollBehavior)
    (w : World) : list ScrollTo :=
  if keepActiveTocItemInView p && has_scrollTo (browser w) then
    match activeTocLi (comp w), nav (comp w) with
    | Some li, Some nav_ =>
      [{| scrollTo_element := nav_;
          scrollTo_top :=
            (inject_Z (offsetTop (browser w) li)
             - inject_Z (offsetHeight (browser w) nav_) / 2)%Q;
          scrollTo_behavior := behavior |}]
    | _, _ => []
    end
  else [].

(** * Properties *)

(** ** Numbers *)

Lemma Qlt_bool_iff (x y : Q) : Qlt_bool x y = true ↔ Qlt x y.
Proof. unfold Qlt_bool, Qlt. apply Z.ltb_lt. Qed.

Lemma number_ltb_lt (x y : number) : number_ltb x y = true ↔ number_lt x y.
Proof.
  destruct x, y; simpl; try (split; [discriminate | contradiction]);
    try tauto.
  apply Qlt_bool_iff.
Qed.

Lemma number_lt_not_geb (x y : number) :
  number_lt x y → number_geb x y = false.
Proof.
  unfold number_geb.
  destruct x as [| |a|], y as [| |c|]; simpl; try contradiction; try reflexivity.
  intros Hlt. apply not_true_is_false. intros Hle.
  apply Qle_bool_iff in Hle. exact (Qlt_not_le _ _ Hlt Hle).
Qed.

(** ** [set_active_heading] *)

Section ActiveHeading.
Variables (p : Props) (b : Browser).

(** The loop reads [headings] and [tocItems] only: it either leaves the
    component alone or assigns a selection that does not depend on the
    selection stored before. *)
Lemma loop_cases (n : nat) (c : Comp) :
  (set_active_heading_loop p b n c = c
   ∧ ∀ x y, set_active_heading_loop p b n (set_active x y c)
            = set_active x y c)
  ∨ (∃ x' y', set_active_heading_loop p b n c = set_active x' y' c
     ∧ ∀ x y, set_active_heading_loop p b n (set_active x y c)
              = set_active x' y' c).
Proof.
  induction n as [|n IH]; simpl.
  - left. split; reflexivity.
  - destruct (headings c !! n) as [h|] eqn:Hh.
    + destruct (scrolled_past p b h || (n =? 0)%nat).
      * right. eexists _, _. split; [reflexivity|]. intros; reflexivity.
      * exact IH.
    + left. split; reflexivity.
Qed.

(** Entered below the length, the loop stops at the last index that was
    scrolled past, or at 0. *)
Lemma loop_selects (c : Comp) (n : nat) :
  0 < n → n ≤ length (headings c) →
  ∃ k h, k < n
    ∧ headings c !! k = Some h
    ∧ set_active_heading_loop p b n c
      = set_active (Some h) (mjoin (tocItems c !! k)) c
    ∧ (∀ j h', k < j → j < n → headings c !! j = Some h' →
         scrolled_past p b h' = false)
    ∧ (k = 0 ∨ scrolled_past p b h = true).
Proof.
  induction n as [|n IH]; [lia|]. intros _ Hle. simpl.
  destruct (lookup_lt_is_Some_2 (headings c) n) as [h Hh]; [lia|].
  rewrite Hh.
  destruct (scrolled_past p b h) eqn:Hpast; simpl.
  - exists n, h. split_and!; [lia|done|done| |by right].
    intros j h' ? ?. lia.
  - destruct (Nat.eqb_spec n 0) as [->|Hn].
    + exists 0, h. split_and!; [lia|done|done| |by left].
      intros j h' ? ?. lia.
    + destruct IH as (k & hk & Hk & Hlk & Heq & Hafter & Hat); [lia..|].
      exists k, hk. split_and!; [lia|done|done| |done].
      intros j h' Hkj Hjn Hj.
      destruct (decide (j = n)) as [->|]; [congruence|].
      apply (Hafter j h'); [lia..|done].
Qed.

Lemma is_active_index_unique (hs : list node) (k k' : nat) :
  is_active_index p b hs k → is_active_index p b hs k' → k = k'.
Proof.
  intros (Hk & Hafter & Hat) (Hk' & Hafter' & Hat').
  destruct (Nat.lt_trichotomy k k') as [Hlt|[->|Hlt]]; [|done|].
  - destruct Hat' as [->|(h & Hh & Hp)]; [lia|].
    rewrite (Hafter k' h Hlt Hh) in Hp. discriminate.
  - destruct Hat as [->|(h & Hh & Hp)]; [lia|].
    rewrite (Hafter' k h Hlt Hh) in Hp. discriminate.
Qed.

Lemma scrolled_past_above (h : node) :
  scrolled_past p b h = true ↔ above_threshold p b h.
Proof. apply number_ltb_lt. Qed.

Lemma scrolled_past_not_above (h : node) :
  scrolled_past p b h = false ↔ ¬ above_threshold p b h.
Proof.
  rewrite <- scrolled_past_above.
  destruct (scrolled_past p b h); split; done.
Qed.

Lemma selected_index_active (hs : list node) (k : nat) :
  selected_index p b hs k ↔ is_active_index p b hs k.
Proof.
  unfold selected_index, is_active_index.
  split; intros (Hk & Hafter & Hat); (split; [done|]); split.
  - intros j h Hkj Hj. apply scrolled_past_not_above. by apply (Hafter j).
  - destruct Hat as [->|(h & Hh & Hp)]; [by left|right].
    exists h. split; [done|]. by apply scrolled_past_above.
  - intros j h Hkj Hj. apply scrolled_past_not_above. by apply (Hafter j).
  - destruct Hat as [->|(h & Hh & Hp)]; [by left|right].
    exists h. split; [done|]. by apply scrolled_past_above.
Qed.

(** C1. For a non-empty heading collection, whatever the positions,
    [set_active_heading] selects exactly one entry: after it the active
    heading is the heading at the one index [k] such that no heading after
    [k] has its top above the threshold ([top < activeHeadingScrollOffset])
    and heading [k] has, or [k = 0]; so it is the first heading when no
    heading qualifies.  The active list item is the item at the same
    index, and nothing else changes. *)
Theorem set_active_heading_selects (c : Comp) :
  headings c ≠ [] →
  ∃ k h,
    headings c !! k = Some h
    ∧ activeHeading (set_active_heading p b c) = Some h
    ∧ activeTocLi (set_active_heading p b c) = mjoin (tocItems c !! k)
    ∧ selected_index p b (headings c) k
    ∧ (∀ k', selected_index p b (headings c) k' → k' = k)
    ∧ ((∀ j h', headings c !! j = Some h' → ¬ above_threshold p b h')
       → k = 0)
    ∧ set_active_heading p b c
      = set_active (Some h) (mjoin (tocItems c !! k)) c.
Proof.
  intros Hne.
  assert (0 < length (headings c)) as Hlen
    by (destruct (headings c); [done | simpl; lia]).
  destruct (loop_selects c (length (headings c)) Hlen (le_n _))
    as (k & h & Hk & Hh & Heq & Hafter & Hat).
  assert (is_active_index p b (headings c) k) as Hact.
  { split; [done|]. split.
    - intros j h' Hkj Hj. apply (Hafter j h'); [done| |done].
      by eapply lookup_lt_Some.
    - destruct Hat as [->|Hp]; [by left | right; eauto]. }
  exists k, h. fold (set_active_heading p b c) in Heq.
  split_and!.
  - exact Hh.
  - by rewrite Heq.
  - by rewrite Heq.
  - by apply selected_index_active.
  - intros k' Hk'. apply selected_index_active in Hk'.
    by eapply is_active_index_unique.
  - intros Hnone. destruct Hat as [->|Hp]; [done|].
    apply scrolled_past_above in Hp. by destruct (Hnone k h Hh).
  - exact Heq.
Qed.

(** C5. Recomputing the active heading is idempotent: with the headings
    and their positions unchanged, a second [set_active_heading] leaves
    the component exactly as the first one did, so the active heading and
    the active list item are the same. *)
Theorem set_active_heading_idempotent (c : Comp) :
  set_active_heading p b (set_active_heading p b c)
  = set_active_heading p b c.
Proof.
  unfold set_active_heading.
  destruct (loop_cases (length (headings c)) c)
    as [[Hsame _]|(x & y & Hset & Hagain)].
  - by rewrite !Hsame.
  - rewrite Hset. simpl. apply Hagain.
Qed.

End ActiveHeading.

Lemma set_active_heading_selects_witness :
  headings sample_comp ≠ []
  ∧ ∃ k h,
      headings sample_comp !! k = Some h
      ∧ activeHeading
          (set_active_heading sample_props (browser sample_world) sample_comp)
        = Some h
      ∧ activeTocLi
          (set_active_heading sample_props (browser sample_world) sample_comp)
        = mjoin (tocItems sample_comp !! k)
      ∧ selected_index sample_props (browser sample_world)
          (headings sample_comp) k
      ∧ (∀ k', selected_index sample_props (browser sample_world)
                 (headings sample_comp) k' → k' = k)
      ∧ ((∀ j h', headings sample_comp !! j = Some h' →
            ¬ above_threshold sample_props (browser sample_world) h')
         → k = 0)
      ∧ set_active_heading sample_props (browser sample_world) sample_comp
        = set_active (Some h) (mjoin (tocItems sample_comp !! k)) sample_comp.
Proof.
  split; [discriminate|].
  apply (set_active_heading_selects sample_props (browser sample_world)
           sample_comp).
  discriminate.
Defined.

(** On the sample page the second heading is the last one above the
    threshold; with every heading below it, the first one is selected. *)
Example set_active_heading_sample :
  activeHeading
    (set_active_heading sample_props (browser sample_world)
       (set_active None None sample_comp)) = Some 11
  ∧ activeTocLi
    (set_active_heading sample_props (browser sample_world)
       (set_active None None sample_comp)) = Some 21.
Proof. split; reflexivity. Qed.

Lemma set_active_heading_empty (p : Props) (b : Browser) (c : Comp) :
  headings c = [] → set_active_heading p b c = c.
Proof. unfold set_active_heading. by intros ->. Qed.

(** ** [requery_headings] *)

Lemma set_active_heading_headings (p : Props) (b : Browser) (c : Comp) :
  headings (set_active_heading p b c) = headings c
  ∧ hide (set_active_heading p b c) = hide c.
Proof.
  unfold set_active_heading.
  destruct (loop_cases p b (length (headings c)) c)
    as [[-> _]|(x & y & -> & _)]; done.
Qed.

(** C3. After a re-query of the headings of an existing document: the
    collection is what the selector matches; if it is empty, a diagnostic
    is emitted when [warnOnEmpty] is set and [hide] becomes true when
    [autoHide] is set (and stays as it was otherwise); if it is not empty,
    nothing is logged and a hidden panel is shown again when [autoHide] is
    set. *)
Theorem requery_headings_hide_and_warn
    (p : Props) (w : World) (d : Document) (found : list node) :
  document (browser w) = Some d →
  querySelectorAll d (headingSelector p) = Ok found →
  ∃ w',
    requery_headings p w = Returned w'
    ∧ headings (comp w') = found
    ∧ (found = [] →
       console (browser w')
       = (if warnOnEmpty p then console (browser w) ++ [empty_warning p]
          else console (browser w))
       ∧ hide (comp w') = (if autoHide p then true else hide (comp w)))
    ∧ (found ≠ [] →
       console (browser w') = console (browser w)
       ∧ hide (comp w')
         = (if hide (comp w) && autoHide p then false else hide (comp w))).
Proof.
  intros Hdoc Hquery. unfold requery_headings. rewrite Hdoc, Hquery.
  destruct (set_active_heading_headings p (browser w)
              (set_headings found (comp w))) as [Hhs Hhide].
  simpl in Hhs, Hhide. rewrite Hhs, Hhide.
  destruct found as [|h found]; simpl.
  - eexists. split; [reflexivity|]. split.
    + destruct (autoHide p); simpl; exact Hhs.
    + split; [|done]. intros _. split.
      * by destruct (warnOnEmpty p).
      * destruct (autoHide p); simpl; [reflexivity|exact Hhide].
  - destruct (hide (comp w) && autoHide p) eqn:Hcond;
      (eexists; split; [reflexivity|]); simpl;
      (split; [exact Hhs|]); (split; [done|]); intros _; (split; [done|]);
      simpl; [reflexivity|exact Hhide].
Qed.

Lemma requery_headings_hide_and_warn_witness :
  ∃ w',
    requery_headings sample_props emptied_world = Returned w'
    ∧ headings (comp w') = []
    ∧ (@nil node = [] →
       console (browser w')
       = (if warnOnEmpty sample_props
          then console (browser emptied_world) ++ [empty_warning sample_props]
          else console (browser emptied_world))
       ∧ hide (comp w')
         = (if autoHide sample_props then true else hide (comp emptied_world)))
    ∧ (@nil node ≠ [] →
       console (browser w') = console (browser emptied_world)
       ∧ hide (comp w')
         = (if hide (comp emptied_world) && autoHide sample_props then false
            else hide (comp emptied_world))).
Proof.
  apply (requery_headings_hide_and_warn sample_props emptied_world
           bare_document []); reflexivity.
Defined.

(** The scenario of the specification: no heading, a warning and a hidden
    panel; a heading appears and the next re-query shows the panel again. *)
Example requery_headings_scenario :
  ∃ w1 w2,
    requery_headings sample_props emptied_world = Returned w1
    ∧ hide (comp w1) = true
    ∧ console (browser w1)
      = ["svelte-toc found no headings for headingSelector=':is(h2, h3, h4):not(.toc-exclude)'. Hiding table of contents."%string]
    ∧ requery_headings sample_props
        (with_browser (set_document (Some sample_document)) w1)
      = Returned w2
    ∧ hide (comp w2) = false
    ∧ headings (comp w2) = [10; 11; 12]
    ∧ console (browser w2) = console (browser w1).
Proof. eexists _, _. repeat split; reflexivity. Qed.

(** Without a document the re-query is skipped. *)
Lemma requery_headings_ssr (p : Props) (w : World) :
  document (browser w) = None → requery_headings p w = Returned w.
Proof. unfold requery_headings. by intros ->. Qed.

(** C9. With an empty heading collection [set_active_heading] updates
    nothing; so when a re-query finds no heading, the active heading and
    the active list item stored before are still there afterwards. *)
Theorem empty_collection_keeps_selection
    (p : Props) (w : World) (d : Document) :
  document (browser w) = Some d →
  querySelectorAll d (headingSelector p) = Ok [] →
  (∀ b c, headings c = [] → set_active_heading p b c = c)
  ∧ ∃ w',
      requery_headings p w = Returned w'
      ∧ headings (comp w') = []
      ∧ activeHeading (comp w') = activeHeading (comp w)
      ∧ activeTocLi (comp w') = activeTocLi (comp w).
Proof.
  intros Hdoc Hquery. split; [apply set_active_heading_empty|].
  unfold requery_headings. rewrite Hdoc, Hquery.
  rewrite set_active_heading_empty by reflexivity. simpl.
  eexists. split; [reflexivity|].
  destruct (autoHide p); done.
Qed.

Lemma empty_collection_keeps_selection_witness :
  (∀ b c, headings c = [] → set_active_heading sample_props b c = c)
  ∧ ∃ w',
      requery_headings sample_props emptied_world = Returned w'
      ∧ headings (comp w') = []
      ∧ activeHeading (comp w') = Some 11
      ∧ activeTocLi (comp w') = Some 21.
Proof.
  apply (empty_collection_keeps_selection sample_props emptied_world
           bare_document); reflexivity.
Defined.

(** ** [onMount] *)

(** C4. When [pageBody] is a selector that matches no element at mount,
    the [onMount] callback throws: it does not return, the error carries
    the message of the [throw] statement, and no mutation observer has
    been registered. *)
Theorem onMount_missing_pageBody_throws
    (w : World) (d : Document) (selector : string) :
  pageBody (comp w) = PageBodySelector selector →
  document (browser w) = Some d →
  querySelector d selector = Ok None →
  onMount w
  = Thrown "Could not find page body element: null"
      (with_comp (set_pageBody PageBodyNull) w)
  ∧ observers (browser (with_comp (set_pageBody PageBodyNull) w))
    = observers (browser w).
Proof.
  intros Hbody Hdoc Hfound. unfold onMount.
  rewrite Hbody, Hdoc, Hfound. split; reflexivity.
Qed.

Lemma onMount_missing_pageBody_throws_witness :
  onMount unmounted_world
  = Thrown "Could not find page body element: null"
      (with_comp (set_pageBody PageBodyNull) unmounted_world)
  ∧ observers (browser (with_comp (set_pageBody PageBodyNull) unmounted_world))
    = observers (browser unmounted_world).
Proof.
  apply (onMount_missing_pageBody_throws unmounted_world sample_document
           "#missing"); reflexivity.
Defined.

(** A selector that matches is resolved and its element observed. *)
Example onMount_sample :
  ∃ w',
    onMount {| comp := initial_comp;
               browser := sample_browser (Some sample_document) |}
    = Returned w'
    ∧ pageBody (comp w') = PageBodyElement 1
    ∧ observers (browser w') = [1].
Proof. eexists. repeat split; reflexivity. Qed.

(** ** The template guards *)

(** The claim C2 as stated fails: with no heading, one required and the
    panel open, the navigation is rendered. *)
Lemma nav_rendered_below_minItems :
  ¬ (∀ (p : Props) (c : Comp),
       below_minItems p c → renders_nav p c = false).
Proof.
  intros Hclaim.
  specialize (Hclaim one_required opened_empty).
  assert (below_minItems one_required opened_empty) as Hbelow
    by (vm_compute; reflexivity).
  specialize (Hclaim Hbelow). vm_compute in Hclaim. discriminate.
Qed.

(** C2, amended. When the heading count is strictly below [minItems], the
    navigation is rendered exactly when the open flag is true: not at all
    while the panel is closed, whatever the width, and always while it is
    open. *)
Theorem nav_below_minItems_iff_open (p : Props) (c : Comp) :
  below_minItems p c → renders_nav p c = open c.
Proof.
  unfold below_minItems, renders_nav. intros Hbelow.
  rewrite (number_lt_not_geb _ _ Hbelow).
  by rewrite andb_false_r, orb_false_r.
Qed.

Lemma nav_below_minItems_iff_open_witness :
  below_minItems one_required initial_comp
  ∧ renders_nav one_required initial_comp = open initial_comp.
Proof.
  assert (below_minItems one_required initial_comp) as Hbelow
    by (vm_compute; reflexivity).
  split; [exact Hbelow|].
  exact (nav_below_minItems_iff_open one_required initial_comp Hbelow).
Defined.

(** Below the minimum the button that opens the panel is not rendered. *)
Lemma button_hidden_below_minItems (p : Props) (c : Comp) :
  below_minItems p c → renders_button p c = false.
Proof.
  unfold below_minItems, renders_button. intros Hbelow.
  rewrite (number_lt_not_geb _ _ Hbelow). apply andb_false_r.
Qed.

(** ** The width of the window *)

(** C8. [desktop] is a function of the window width and the breakpoint
    alone: whenever the reactive statement runs, [desktop] is true exactly
    when the width is known and strictly greater than the breakpoint; and
    it runs on every change of the width, after which [window_width] is
    the new width and [desktop] says whether that width is strictly
    greater than the breakpoint. *)
Theorem desktop_iff_wider_than_breakpoint
    (p : Props) (innerWidth : number) (w : World) :
  safe_not_equal (window_width (comp w)) (Some innerWidth) = true →
  let w' := window_event p (Resize innerWidth) w in
  window_width (comp w') = Some innerWidth
  ∧ desktop (comp w') = number_gtb innerWidth (breakpoint p)
  ∧ (desktop (comp w') = true ↔ number_lt (breakpoint p) innerWidth)
  ∧ (∀ c, desktop (update_desktop p c) = true
          ↔ ∃ width, window_width c = Some width
                     ∧ number_lt (breakpoint p) width).
Proof.
  intros Hchanged. simpl. rewrite Hchanged. simpl.
  split; [reflexivity|]. split; [reflexivity|].
  split; [apply number_ltb_lt|].
  intros c. unfold update_desktop, number_gtb. simpl.
  destruct (window_width c) as [width|]; simpl.
  - split.
    + intros Hgt. exists width. split; [done|]. by apply number_ltb_lt.
    + intros (x & [= <-] & Hlt). by apply number_ltb_lt.
  - split; [by destruct (breakpoint p) | by intros (x & [=] & _)].
Qed.

(** A width of 1400 with the default breakpoint 1000, on a window that was
    500 wide, gives [desktop = true]. *)
Lemma desktop_iff_wider_than_breakpoint_witness :
  desktop (comp (window_event sample_props (Resize (Fin 1400)) sample_world))
  = true.
Proof.
  destruct (desktop_iff_wider_than_breakpoint sample_props (Fin 1400)
              sample_world eq_refl) as (_ & _ & Hiff & _).
  apply Hiff. reflexivity.
Defined.

(** A [resize] event that does not change the width does not run the
    reactive statement: a value the host has written to [desktop] stays. *)
Lemma resize_same_width_keeps_desktop
    (p : Props) (innerWidth : number) (w : World) :
  safe_not_equal (window_width (comp w)) (Some innerWidth) = false →
  desktop (comp (window_event p (Resize innerWidth) w)) = desktop (comp w).
Proof. intros Hsame. simpl. by rewrite Hsame. Qed.

(** At or below the breakpoint, and before the width is known, the
    presentation is the mobile one. *)
Example desktop_samples :
  desktop (comp (window_event sample_props (Resize (Fin 1000)) sample_world))
  = false
  ∧ desktop (comp (window_event sample_props (Resize (Fin 500)) sample_world))
    = false
  ∧ desktop (update_desktop sample_props initial_comp) = false.
Proof. repeat split; reflexivity. Qed.

(** ** Scrolling the list of the panel *)

Lemma set_active_same (c : Comp) :
  set_active (activeHeading c) (activeTocLi c) c = c.
Proof. by destruct c. Qed.

Lemma set_active_heading_assigns (p : Props) (b : Browser) (c : Comp) :
  ∃ x y, set_active_heading p b c = set_active x y c.
Proof.
  unfold set_active_heading.
  destruct (loop_cases p b (length (headings c)) c)
    as [[-> _]|(x & y & -> & _)]; [|by eexists _, _].
  exists (activeHeading c), (activeTocLi c). by rewrite set_active_same.
Qed.

Lemma scroll_to_active_toc_item_calls
    (p : Props) (behavior : ScrollBehavior) (w : World) :
  let w' := scroll_to_active_toc_item p behavior w in
  scrollTo_calls (browser w')
  = scrollTo_calls (browser w) ++ active_item_scroll p behavior w
  ∧ scrolling (browser w') = scrolling (browser w)
  ∧ comp w' = comp w.
Proof.
  unfold scroll_to_active_toc_item, active_item_scroll. simpl.
  destruct (keepActiveTocItemInView p); simpl;
    [|by rewrite app_nil_r].
  destruct (activeTocLi (comp w)) as [li|], (nav (comp w)) as [nav_|];
    simpl; unfold scrollTo;
    destruct (has_scrollTo (browser w)); simpl;
    by rewrite ?app_nil_r.
Qed.





(** On a wide window the navigation stays rendered when an entry is
    clicked.  The click starts a smooth scroll; three [scroll] events
    later the list has not been scrolled, and [scrollend] scrolls it
    smoothly. *)
Example nav_scroll_deferred_sample :
  let w := li_click_key_handler sample_props 12 (MouseEvent 22) desktop_world in
  let w1 := window_events sample_props (replicate 3 Scroll) w in
  let w2 := window_event sample_props ScrollEnd w1 in
  renders_nav sample_props (comp w) = true
  ∧ scrolling (browser w) = true
  ∧ scrolling (browser w1) = true
  ∧ scrollTo_calls (browser w1) = []
  ∧ scrolling (browser w2) = false
  ∧ map scrollTo_element (scrollTo_calls (browser w2)) = [2]
  ∧ map scrollTo_behavior (scrollTo_calls (browser w2)) = [Smooth].
Proof. vm_compute. repeat split; reflexivity. Qed.

Lemma scroll_to_active_toc_item_other
    (p : Props) (behavior : ScrollBehavior) (w : World) :
  let w' := scroll_to_active_toc_item p behavior w in
  console (browser w') = console (browser w)
  ∧ classList (browser w') = classList (browser w)
  ∧ location_hash (browser w') = location_hash (browser w)
  ∧ timeouts (browser w') = timeouts (browser w)
  ∧ scrollIntoView_calls (browser w') = scrollIntoView_calls (browser w).
Proof.
  unfold scroll_to_active_toc_item.
  destruct (keepActiveTocItemInView p); [|done].
  destruct (activeTocLi (comp w)), (nav (comp w)); try done.
  simpl. unfold scrollTo. by destruct (has_scrollTo (browser w)).
Qed.

(** The reactive block does nothing unless [open] is set and [nav] is
    bound.  Then it recomputes the active heading and list item, keeps
    them, and scrolls the list to the recomputed item at once, with the
    instant behaviour, whether or not the document is being scrolled; it
    touches nothing else. *)
Theorem reactive_open_nav_cases (p : Props) (w : World) :
  let w' := reactive_open_nav p w in
  if open (comp w) && bool_decide (is_Some (nav (comp w))) then
    comp w' = set_active_heading p (browser w) (comp w)
    ∧ activeHeading (comp w')
      = activeHeading (set_active_heading p (browser w) (comp w))
    ∧ activeTocLi (comp w')
      = activeTocLi (set_active_heading p (browser w) (comp w))
    ∧ scrollTo_calls (browser w')
      = scrollTo_calls (browser w)
        ++ active_item_scroll p Instant
             (with_comp (set_active_heading p (browser w)) w)
    ∧ scrolling (browser w') = scrolling (browser w)
    ∧ console (browser w') = console (browser w)
    ∧ classList (browser w') = classList (browser w)
    ∧ location_hash (browser w') = location_hash (browser w)
    ∧ timeouts (browser w') = timeouts (browser w)
    ∧ scrollIntoView_calls (browser w') = scrollIntoView_calls (browser w)
  else w' = w.
Proof.
  unfold reactive_open_nav.
  destruct (open (comp w) && bool_decide (is_Some (nav (comp w))));
    [|reflexivity].
  destruct (scroll_to_active_toc_item_calls p Instant
              (with_comp (set_active_heading p (browser w)) w))
    as (Hcalls & Hflag & Hcomp).
  destruct (scroll_to_active_toc_item_other p Instant
              (with_comp (set_active_heading p (browser w)) w))
    as (Hconsole & Hclasses & Hhash & Htimeouts & Hinto).
  simpl in Hcalls, Hflag, Hcomp, Hconsole, Hclasses, Hhash, Htimeouts, Hinto.
  rewrite Hcalls, Hflag, Hcomp. by split_and!.
Qed.

(** ** [li_click_key_handler] *)

Lemma is_activation_key_iff (key : string) :
  is_activation_key key = true ↔ key = "Enter"%string ∨ key = " "%string.
Proof.
  unfold is_activation_key. rewrite bool_decide_eq_true.
  rewrite !elem_of_cons, elem_of_nil. tauto.
Qed.

(** C7. A keyboard event whose key is neither Enter nor Space leaves the
    world as it is: the open flag, the scroll requests, the location
    fragment, the class lists and the timers are all unchanged. *)
Theorem li_click_key_handler_ignores_other_keys
    (p : Props) (n : node) (key : string) (w : World) :
  key ≠ "Enter"%string → key ≠ " "%string →
  li_click_key_handler p n (KeyboardEvent key) w = w.
Proof.
  intros Henter Hspace. unfold li_click_key_handler.
  destruct (is_activation_key key) eqn:Hkey; [|reflexivity].
  apply is_activation_key_iff in Hkey. tauto.
Qed.

Lemma li_click_key_handler_ignores_other_keys_witness :
  li_click_key_handler sample_props 11 (KeyboardEvent "Tab") sample_world
  = sample_world.
Proof.
  apply (li_click_key_handler_ignores_other_keys sample_props 11 "Tab"
           sample_world); discriminate.
Defined.



(** With an identifier the fragment is replaced, and the clicked heading
    is flashed. *)
Example li_click_key_handler_sample :
  let w' := li_click_key_handler sample_props 11 (KeyboardEvent "Enter")
              sample_world in
  open (comp w') = false
  ∧ location_hash (browser w') = "#usage"%string
  ∧ classList (browser w') 11 = ["toc-clicked"%string]
  ∧ timeouts (browser w')
    = [{| timeout_node := 11; timeout_remove := "toc-clicked";
          timeout_delay := Fin 1500 |}].
Proof. repeat split; reflexivity. Qed.

(** * Further properties *)

(** ** More on [set_active_heading] *)

(** [set_active_heading] assigns [activeHeading] and [activeTocLi] and
    nothing else: the headings, the list items, the open and hidden flags
    and all other component variables are as before. *)
Theorem set_active_heading_frame (p : Props) (b : Browser) (c : Comp) :
  let c' := set_active_heading p b c in
  c' = set_active (activeHeading c') (activeTocLi c') c.
Proof.
  simpl. by destruct (set_active_heading_assigns p b c) as (x & y & ->).
Qed.

(** Once the last heading has been scrolled past it is the active one,
    wherever the other headings are. *)
Theorem last_heading_scrolled_past_is_active
    (p : Props) (b : Browser) (c : Comp) (hs : list node) (h : node) :
  headings c = hs ++ [h] →
  scrolled_past p b h = true →
  let c' := set_active_heading p b c in
  activeHeading c' = Some h
  ∧ activeTocLi c' = mjoin (tocItems c !! length hs).
Proof.
  intros Hhs Hpast. unfold set_active_heading.
  rewrite Hhs, length_app, Nat.add_1_r. simpl.
  rewrite Hhs, lookup_app_r, Nat.sub_diag by lia. simpl.
  rewrite Hpast. simpl. done.
Qed.

Lemma last_heading_scrolled_past_is_active_witness :
  let c' := set_active_heading sample_props
              (sample_browser (Some sample_document))
              (set_headings [12; 10] sample_comp) in
  activeHeading c' = Some 10
  ∧ activeTocLi c' = mjoin (tocItems (set_headings [12; 10] sample_comp) !! 1).
Proof.
  apply (last_heading_scrolled_past_is_active sample_props
           (sample_browser (Some sample_document))
           (set_headings [12; 10] sample_comp) [12] 10); reflexivity.
Defined.

(** While no list item is bound (the navigation is not rendered), a
    recomputation over a non-empty collection sets the active heading and
    resets the active list item to nothing, so the [scrollend] that follows
    does not scroll anything. *)
Theorem unbound_items_give_no_active_item (p : Props) (w : World) :
  headings (comp w) ≠ [] →
  tocItems (comp w) = [] →
  let w1 := window_event p Scroll w in
  let w2 := window_event p ScrollEnd w1 in
  is_Some (activeHeading (comp w1))
  ∧ activeTocLi (comp w1) = None
  ∧ scrollTo_calls (browser w2) = scrollTo_calls (browser w).
Proof.
  intros Hne Hitems. simpl. unfold on_scroll, set_active_heading.
  assert (0 < length (headings (comp w))) as Hlen
    by (destruct (headings (comp w)); [done | simpl; lia]).
  destruct (loop_selects p (browser w) (comp w) (length (headings (comp w)))
              Hlen (le_n _)) as (k & h & _ & _ & Heq & _).
  rewrite Hitems in Heq. rewrite lookup_nil in Heq. simpl in Heq.
  unfold on_scrollend, scroll_to_active_toc_item. simpl.
  rewrite Heq. simpl. split; [by eexists|]. split; [reflexivity|].
  by destruct (keepActiveTocItemInView p).
Qed.

Lemma unbound_items_give_no_active_item_witness :
  let w := with_comp (fun c => set_headings [10; 11; 12] initial_comp)
             sample_world in
  let w1 := window_event sample_props Scroll w in
  let w2 := window_event sample_props ScrollEnd w1 in
  is_Some (activeHeading (comp w1))
  ∧ activeTocLi (comp w1) = None
  ∧ scrollTo_calls (browser w2) = scrollTo_calls (browser w).
Proof.
  apply (unbound_items_give_no_active_item sample_props
           (with_comp (fun c => set_headings [10; 11; 12] initial_comp)
              sample_world)); [discriminate | reflexivity].
Defined.

(** ** More on the template guards *)

(** The button that opens the panel and the navigation are never rendered
    together; with at least [minItems] headings exactly one of them is. *)
Theorem button_and_nav_exclusive (p : Props) (c : Comp) :
  (renders_button p c = true → renders_nav p c = false)
  ∧ (number_geb (number_of_nat (length (headings c))) (minItems p) = true →
     renders_button p c = negb (renders_nav p c)).
Proof.
  unfold renders_button, renders_nav.
  destruct (open c), (desktop c),
    (number_geb (number_of_nat (length (headings c))) (minItems p));
    simpl; split; intros; done.
Qed.

Lemma button_hidden_below_minItems_witness :
  below_minItems one_required initial_comp
  ∧ renders_button one_required initial_comp = false.
Proof.
  assert (below_minItems one_required initial_comp) as Hbelow
    by (vm_compute; reflexivity).
  split; [exact Hbelow|].
  exact (button_hidden_below_minItems one_required initial_comp Hbelow).
Defined.

(** ** More on [desktop] *)

(** As long as the width of the window is unknown, and when the width or
    the breakpoint is NaN, the presentation is the mobile one whatever
    the other value is. *)
Theorem desktop_false_without_width (p : Props) (c : Comp) :
  window_width c = None ∨ window_width c = Some NaN ∨ breakpoint p = NaN →
  desktop (update_desktop p c) = false.
Proof.
  unfold update_desktop, number_gtb. simpl.
  intros [-> | [-> | ->]]; simpl.
  - by destruct (breakpoint p).
  - by destruct (breakpoint p).
  - by destruct (to_number (window_width c)).
Qed.

Lemma desktop_false_without_width_witness :
  desktop (update_desktop sample_props initial_comp) = false.
Proof.
  apply (desktop_false_without_width sample_props initial_comp).
  left. reflexivity.
Defined.

(** ** More on [scroll_to_active_toc_item] *)

Lemma with_browser_same (w : World) : with_browser (fun _ => browser w) w = w.
Proof. by destruct w. Qed.

(** [scroll_to_active_toc_item] scrolls only when the option is on, an
    active list item and the navigation are bound and elements can be
    scrolled: then it makes one call, on the navigation, whose target puts
    the active item in the middle of the container
    ([2 * top = 2 * offsetTop - offsetHeight]).  In every other case it
    does nothing at all. *)
Theorem scroll_to_active_toc_item_cases
    (p : Props) (behavior : ScrollBehavior) (w : World) :
  let w' := scroll_to_active_toc_item p behavior w in
  match activeTocLi (comp w), nav (comp w) with
  | Some li, Some nav_ =>
    if keepActiveTocItemInView p && has_scrollTo (browser w) then
      ∃ call,
        scrollTo_calls (browser w') = scrollTo_calls (browser w) ++ [call]
        ∧ scrollTo_element call = nav_
        ∧ scrollTo_behavior call = behavior
        ∧ (2 * scrollTo_top call
           == 2 * inject_Z (offsetTop (browser w) li)
              - inject_Z (offsetHeight (browser w) nav_))%Q
    else w' = w
  | _, _ => w' = w
  end.
Proof.
  unfold scroll_to_active_toc_item.
  destruct (activeTocLi (comp w)) as [li|], (nav (comp w)) as [nav_|];
    destruct (keepActiveTocItemInView p); simpl; try reflexivity.
  unfold with_browser, scrollTo.
  destruct (has_scrollTo (browser w)) eqn:Hhas; simpl.
  - eexists. split; [reflexivity|]. simpl. split; [reflexivity|].
    split; [reflexivity|]. field.
  - by destruct w.
Qed.

(** ** More on [li_click_key_handler] *)

Lemma activates_not_ignored (event : Event) :
  activates event →
  match event with
  | KeyboardEvent key => negb (is_activation_key key)
  | MouseEvent _ => false
  end = false.
Proof.
  destruct event as [target|key]; [reflexivity|]. intros Hact.
  apply negb_false_iff, is_activation_key_iff, Hact.
Qed.

(** A click, Enter and Space are handled alike: what the handler does
    depends on the entry, not on which of these events activated it. *)
Theorem activation_events_alike
    (p : Props) (n : node) (event event' : Event) (w : World) :
  activates event → activates event' →
  li_click_key_handler p n event w = li_click_key_handler p n event' w.
Proof.
  intros Hact Hact'. unfold li_click_key_handler.
  by rewrite (activates_not_ignored _ Hact), (activates_not_ignored _ Hact').
Qed.

Lemma activation_events_alike_witness :
  li_click_key_handler sample_props 11 (KeyboardEvent " ") sample_world
  = li_click_key_handler sample_props 11 (MouseEvent 21) sample_world.
Proof.
  apply (activation_events_alike sample_props 11 (KeyboardEvent " ")
           (MouseEvent 21) sample_world); [by right | exact I].
Defined.

(** Activating an entry whose heading has the non-empty identifier [id]
    closes the panel and calls [history.replaceState] once, with the URL
    [#id]; the fragment of the location is then what the URL parser makes
    of [#id]. *)
Theorem activation_sets_fragment
    (p : Props) (n : node) (event : Event) (w : World)
    (ids : node → string) :
  activates event →
  getHeadingIds p = Some ids →
  ids n ≠ ""%string →
  let w' := li_click_key_handler p n event w in
  open (comp w') = false
  ∧ replaceState_calls (browser w')
    = replaceState_calls (browser w) ++ [("#" +:+ ids n)%string]
  ∧ location_hash (browser w')
    = resolve_hash (browser w) ("#" +:+ ids n)%string.
Proof.
  intros Hact Hids Hid. unfold li_click_key_handler.
  rewrite (activates_not_ignored _ Hact), Hids.
  destruct (ids n) as [|a id] eqn:Hn; [done|]. simpl.
  destruct (number_truthy (flashClickedHeadingsFor p)); simpl;
    [|done].
  unfold classList_add. simpl.
  by destruct (bool_decide _).
Qed.

Lemma activation_sets_fragment_witness :
  let w' := li_click_key_handler sample_props 10 (MouseEvent 20) sample_world in
  open (comp w') = false
  ∧ replaceState_calls (browser w')
    = replaceState_calls (browser sample_world) ++ ["#intro"%string]
  ∧ location_hash (browser w')
    = resolve_hash (browser sample_world) "#intro"%string.
Proof.
  apply (activation_sets_fragment sample_props 10 (MouseEvent 20) sample_world
           sample_ids); [exact I | reflexivity | discriminate].
Defined.

Lemma filter_all {A} (P : A → Prop) `{∀ x, Decision (P x)} (l : list A) :
  (∀ x, x ∈ l → P x) → filter P l = l.
Proof.
  induction l as [|a l IH]; intros Hall; [reflexivity|].
  rewrite filter_cons_True by (apply Hall; left).
  f_equal. apply IH. intros x Hx. apply Hall. by right.
Qed.

(** The flash of a clicked heading.  With a truthy
    [flashClickedHeadingsFor], activating an entry marks its heading with
    [toc-clicked] and sets one timer of that delay; when the timer expires
    the heading has its earlier classes without [toc-clicked] (so exactly
    its earlier classes if it was not marked before), and no other element
    has been touched. *)
Theorem flash_round_trip
    (p : Props) (n : node) (event : Event) (w : World) :
  activates event →
  number_truthy (flashClickedHeadingsFor p) = true →
  let w' := li_click_key_handler p n event w in
  let w'' := run_timeout (flash_timeout p n) w' in
  "toc-clicked"%string ∈ classList (browser w') n
  ∧ timeouts (browser w') = timeouts (browser w) ++ [flash_timeout p n]
  ∧ classList (browser w'') n
    = filter (λ cls, cls ≠ "toc-clicked"%string) (classList (browser w) n)
  ∧ ("toc-clicked"%string ∉ classList (browser w) n →
     classList (browser w'') n = classList (browser w) n)
  ∧ (∀ m, m ≠ n →
       classList (browser w') m = classList (browser w) m
       ∧ classList (browser w'') m = classList (browser w) m).
Proof.
  intros Hact Hflash. unfold li_click_key_handler.
  rewrite (activates_not_ignored _ Hact), Hflash.
  set (id := match getHeadingIds p with Some f => f n | None => _ end).
  assert (∀ cls : string,
            filter (λ c, c ≠ "toc-clicked"%string)
              (classList (browser w) n ++ [cls])
            = filter (λ c, c ≠ "toc-clicked"%string) (classList (browser w) n)
              ++ filter (λ c, c ≠ "toc-clicked"%string) [cls]) as Happ
    by (intros; apply filter_app).
  assert (classList
            (browser (if string_truthy id
                      then with_browser (replaceState ("#" +:+ id))
                             (with_browser (scrollIntoView n (scrollBehavior p))
                                (with_comp (set_open false) w))
                      else with_browser (scrollIntoView n (scrollBehavior p))
                             (with_comp (set_open false) w)))
          = classList (browser w)) as Hcl
    by (by destruct (string_truthy id)).
  assert (timeouts
            (browser (if string_truthy id
                      then with_browser (replaceState ("#" +:+ id))
                             (with_browser (scrollIntoView n (scrollBehavior p))
                                (with_comp (set_open false) w))
                      else with_browser (scrollIntoView n (scrollBehavior p))
                             (with_comp (set_open false) w)))
          = timeouts (browser w)) as Htm
    by (by destruct (string_truthy id)).
  simpl. unfold classList_add, classList_remove. rewrite Hcl.
  destruct (bool_decide ("toc-clicked"%string ∈ classList (browser w) n))
    eqn:Hin; simpl.
  - apply bool_decide_eq_true in Hin. rewrite Hcl, Htm.
    rewrite decide_True by done.
    split_and!; try done.
    intros m Hm. by rewrite decide_False.
  - apply bool_decide_eq_false in Hin. rewrite Htm.
    rewrite !decide_True by done.
    assert (filter (λ c, c ≠ "toc-clicked"%string)
              (classList (browser w) n ++ ["toc-clicked"%string])
            = filter (λ c, c ≠ "toc-clicked"%string) (classList (browser w) n))
      as Hfilter.
    { rewrite Happ. rewrite (filter_cons_False _ "toc-clicked"%string).
      - rewrite filter_nil. apply app_nil_r.
      - intros Hneq. by apply Hneq. }
    split_and!.
    + apply elem_of_app. right. by left.
    + reflexivity.
    + exact Hfilter.
    + intros _. rewrite Hfilter. apply filter_all.
      intros x Hx Heq. subst x. by apply Hin.
    + intros m Hm. rewrite !decide_False by done. by rewrite Hcl.
Qed.

Lemma flash_round_trip_witness :
  let w' := li_click_key_handler sample_props 11 (MouseEvent 21) sample_world in
  let w'' := run_timeout (flash_timeout sample_props 11) w' in
  "toc-clicked"%string ∈ classList (browser w') 11
  ∧ timeouts (browser w')
    = timeouts (browser sample_world) ++ [flash_timeout sample_props 11]
  ∧ classList (browser w'') 11
    = filter (λ cls, cls ≠ "toc-clicked"%string)
        (classList (browser sample_world) 11)
  ∧ ("toc-clicked"%string ∉ classList (browser sample_world) 11 →
     classList (browser w'') 11 = classList (browser sample_world) 11)
  ∧ (∀ m, m ≠ 11 →
       classList (browser w') m = classList (browser sample_world) m
       ∧ classList (browser w'') m = classList (browser sample_world) m).
Proof.
  apply (flash_round_trip sample_props 11 (MouseEvent 21) sample_world);
    [exact I | reflexivity].
Defined.

Ltac handler_cases p n :=
  unfold li_click_key_handler;
  match goal with
  | |- context [match ?ev with
                | MouseEvent _ => false
                | KeyboardEvent key => negb (is_activation_key key)
                end] =>
    destruct ev as [?|?]; simpl; [|destruct (is_activation_key _); simpl]
  | _ => idtac
  end;
  repeat match goal with
  | |- context [string_truthy ?id] => destruct (string_truthy id); simpl
  | |- context [number_truthy ?x] => destruct (number_truthy x) eqn:?; simpl
  end;
  unfold classList_add; simpl;
  repeat match goal with
  | |- context [bool_decide ?P] => destruct (bool_decide P) eqn:?; simpl
  end.

(** With [flashClickedHeadingsFor] zero or NaN there is no flash: the
    handler changes no class list and sets no timer. *)
Theorem no_flash_when_falsy
    (p : Props) (n : node) (event : Event) (w : World) :
  number_truthy (flashClickedHeadingsFor p) = false →
  let w' := li_click_key_handler p n event w in
  classList (browser w') = classList (browser w)
  ∧ timeouts (browser w') = timeouts (browser w).
Proof.
  intros Hflash. unfold li_click_key_handler. rewrite Hflash.
  destruct event as [target|key]; simpl;
    [|destruct (is_activation_key key); simpl];
    try destruct (string_truthy _); simpl; done.
Qed.

Lemma no_flash_when_falsy_witness :
  let p := {|
    activeHeadingScrollOffset := Fin 100;
    breakpoint := Fin 1000;
    flashClickedHeadingsFor := Fin 0;
    getHeadingIds := Some sample_ids;
    headingSelector := "h2";
    autoHide := true;
    keepActiveTocItemInView := true;
    minItems := Fin 0;
    scrollBehavior := Auto;
    warnOnEmpty := true
  |} in
  let w' := li_click_key_handler p 11 (MouseEvent 21) sample_world in
  classList (browser w') = classList (browser sample_world)
  ∧ timeouts (browser w') = timeouts (browser sample_world).
Proof.
  intros p.
  apply (no_flash_when_falsy p 11 (MouseEvent 21) sample_world).
  reflexivity.
Defined.

(** What the handler never does, whatever the event: it writes no
    component variable but [open] (which it can only clear), scrolls the
    document at most once and only to its own heading, never scrolls the
    list of the panel, logs nothing, registers no observer, and changes
    the class list of no element but its own heading. *)
Theorem li_click_key_handler_frame
    (p : Props) (n : node) (event : Event) (w : World) :
  let w' := li_click_key_handler p n event w in
  (comp w' = comp w ∨ comp w' = set_open false (comp w))
  ∧ (scrollIntoView_calls (browser w') = scrollIntoView_calls (browser w)
     ∨ scrollIntoView_calls (browser w')
       = scrollIntoView_calls (browser w) ++ [(n, scrollBehavior p)])
  ∧ scrollTo_calls (browser w') = scrollTo_calls (browser w)
  ∧ console (browser w') = console (browser w)
  ∧ observers (browser w') = observers (browser w)
  ∧ document (browser w') = document (browser w)
  ∧ (∀ m, m ≠ n → classList (browser w') m = classList (browser w) m).
Proof.
  handler_cases p n;
    (split_and!; [auto..|]); intros m Hm; try reflexivity;
    by rewrite decide_False.
Qed.

Lemma run_timeout_removes (t : Timeout) (w : World) :
  timeout_remove t ∉ classList (browser (run_timeout t w)) (timeout_node t).
Proof.
  unfold run_timeout, classList_remove. simpl.
  rewrite decide_True by done.
  intros Hin. apply list_elem_of_filter in Hin. by destruct Hin.
Qed.

(** Timers are never cancelled, and a second click on a heading that is
    still marked does not mark it again: after two activations two timers
    are pending, and the first one to expire already ends the flash. *)
Theorem second_click_does_not_extend_flash
    (p : Props) (n : node) (event event' : Event) (w : World) :
  activates event → activates event' →
  number_truthy (flashClickedHeadingsFor p) = true →
  let w1 := li_click_key_handler p n event w in
  let w2 := li_click_key_handler p n event' w1 in
  timeouts (browser w2)
  = timeouts (browser w) ++ [flash_timeout p n; flash_timeout p n]
  ∧ classList (browser w2) n = classList (browser w1) n
  ∧ "toc-clicked"%string ∈ classList (browser w2) n
  ∧ "toc-clicked"%string
    ∉ classList (browser (run_timeout (flash_timeout p n) w2)) n.
Proof.
  intros Hact Hact' Hflash w1 w2.
  assert (∀ ev v, activates ev →
            let v' := li_click_key_handler p n ev v in
            timeouts (browser v') = timeouts (browser v) ++ [flash_timeout p n]
            ∧ "toc-clicked"%string ∈ classList (browser v') n
            ∧ ("toc-clicked"%string ∈ classList (browser v) n →
               classList (browser v') n = classList (browser v) n))
    as Hstep.
  { intros ev v Hev. unfold li_click_key_handler.
    rewrite (activates_not_ignored _ Hev), Hflash.
    destruct (string_truthy _); simpl; unfold classList_add; simpl;
      destruct (bool_decide _) eqn:Hin; simpl;
      try apply bool_decide_eq_true in Hin;
      try apply bool_decide_eq_false in Hin;
      rewrite ?decide_True by done;
      (split_and!; [reflexivity| |done]);
      try exact Hin; apply elem_of_app; right; by left. }
  destruct (Hstep event w Hact) as (Ht1 & Hin1 & _).
  destruct (Hstep event' w1 Hact') as (Ht2 & Hin2 & Hkeep).
  fold w1 in Ht1, Hin1. fold w2 in Ht2, Hin2, Hkeep.
  split_and!.
  - by rewrite Ht2, Ht1, <- app_assoc.
  - by apply Hkeep.
  - exact Hin2.
  - apply (run_timeout_removes (flash_timeout p n) w2).
Qed.

Lemma second_click_does_not_extend_flash_witness :
  let w1 := li_click_key_handler sample_props 11 (MouseEvent 21) sample_world in
  let w2 := li_click_key_handler sample_props 11 (KeyboardEvent "Enter") w1 in
  timeouts (browser w2)
  = timeouts (browser sample_world)
    ++ [flash_timeout sample_props 11; flash_timeout sample_props 11]
  ∧ classList (browser w2) 11 = classList (browser w1) 11
  ∧ "toc-clicked"%string ∈ classList (browser w2) 11
  ∧ "toc-clicked"%string
    ∉ classList (browser (run_timeout (flash_timeout sample_props 11) w2)) 11.
Proof.
  apply (second_click_does_not_extend_flash sample_props 11 (MouseEvent 21)
           (KeyboardEvent "Enter") sample_world);
    [exact I | by left | reflexivity].
Defined.

(** ** [close] *)

(** A click leaves the panel open only if it was open and the target of
    the click is inside the bound panel element; any other click, and any
    click while the element is not bound, closes it.  Nothing else
    changes. *)
Theorem close_outside_click (target : node) (w : World) :
  let w' := close (MouseEvent target) w in
  browser w' = browser w
  ∧ (comp w' = comp w ∨ comp w' = set_open false (comp w))
  ∧ (open (comp w') = true
     ↔ open (comp w) = true
       ∧ ∃ a, aside (comp w) = Some a
              ∧ contains (browser w) a target = true).
Proof.
  unfold close.
  destruct (aside (comp w)) as [a|] eqn:Haside; simpl.
  - destruct (contains (browser w) a target) eqn:Hin; simpl.
    + split_and!; [done|by left|]. split; [|tauto].
      intros Hopen. split; [done|]. by exists a.
    + split_and!; [done|by right|]. split; [done|].
      intros (_ & a' & Ha' & Hin'). congruence.
  - split_and!; [done|by right|]. split; [done|].
    intros (_ & a' & Ha' & _). congruence.
Qed.

(** ** More on [requery_headings] *)

(** [requery_headings] throws exactly when there is a document and the
    heading selector does not parse; the error is the one of
    [querySelectorAll], and no variable has been assigned and nothing
    logged when it is thrown. *)
Theorem requery_headings_throws_iff (p : Props) (w : World) :
  (∀ e w', requery_headings p w = Thrown e w' →
     w' = w
     ∧ ∃ d, document (browser w) = Some d
            ∧ querySelectorAll d (headingSelector p) = Throw e)
  ∧ (∀ d e, document (browser w) = Some d →
       querySelectorAll d (headingSelector p) = Throw e →
       requery_headings p w = Thrown e w).
Proof.
  unfold requery_headings. split.
  - intros e w'.
    destruct (document (browser w)) as [d|]; [|discriminate].
    destruct (querySelectorAll d (headingSelector p)) as [found|e'] eqn:Hq.
    + destruct (length _ =? 0)%nat; [discriminate|].
      destruct (_ && _); discriminate.
    + intros [= -> ->]. split; [reflexivity|]. by exists d.
  - intros d e -> ->. reflexivity.
Qed.

(** A re-query that returns has assigned [headings], the active
    selection and [hide], and possibly logged one warning; the open flag,
    the width, the bound elements, the location, the class lists, the
    timers and the scroll requests are as before. *)
Theorem requery_headings_frame (p : Props) (w w' : World) :
  requery_headings p w = Returned w' →
  requery_frame w w'
  ∧ (console (browser w') = console (browser w)
     ∨ console (browser w') = console (browser w) ++ [empty_warning p]).
Proof.
  unfold requery_headings, requery_frame.
  destruct (document (browser w)) as [d|] eqn:Hdoc;
    [|intros [= <-]; split_and!; auto].
  destruct (querySelectorAll d (headingSelector p)) as [found|e];
    [|discriminate].
  destruct (set_active_heading_assigns p (browser w)
              (set_headings found (comp w))) as (x & y & ->).
  simpl.
  destruct (length found =? 0)%nat.
  - destruct (warnOnEmpty p), (autoHide p);
      intros [= <-]; simpl; split_and!; auto.
  - destruct (hide (comp w) && autoHide p);
      intros [= <-]; simpl; split_and!; auto.
Qed.

Lemma requery_headings_frame_witness :
  ∃ w',
    requery_headings sample_props sample_world = Returned w'
    ∧ requery_frame sample_world w'
    ∧ (console (browser w') = console (browser sample_world)
       ∨ console (browser w')
         = console (browser sample_world) ++ [empty_warning sample_props]).
Proof.
  eexists. split; [reflexivity|].
  apply (requery_headings_frame sample_props sample_world). reflexivity.
Defined.

(** After a re-query that finds headings the active heading is one of the
    headings just found, the one the scan selects; the active list item is
    taken at the same index from the list items bound before the re-query. *)
Theorem requery_headings_selects_among_found
    (p : Props) (w : World) (d : Document) (found : list node) :
  document (browser w) = Some d →
  querySelectorAll d (headingSelector p) = Ok found →
  found ≠ [] →
  ∃ w' k h,
    requery_headings p w = Returned w'
    ∧ is_active_index p (browser w) found k
    ∧ found !! k = Some h
    ∧ activeHeading (comp w') = Some h
    ∧ activeTocLi (comp w') = mjoin (tocItems (comp w) !! k).
Proof.
  intros Hdoc Hquery Hne. unfold requery_headings. rewrite Hdoc, Hquery.
  assert (0 < length found) as Hlen
    by (destruct found; [done | simpl; lia]).
  destruct (loop_selects p (browser w) (set_headings found (comp w))
              (length found) Hlen (le_n _))
    as (k & h & Hk & Hh & Heq & Hafter & Hat).
  simpl in Hh, Hafter.
  unfold set_active_heading. simpl. rewrite Heq. simpl.
  assert (is_active_index p (browser w) found k) as Hact.
  { split; [done|]. split.
    - intros j h' Hkj Hj. apply (Hafter j h'); [done| |done].
      by eapply lookup_lt_Some.
    - destruct Hat as [->|Hp]; [by left | right; eauto]. }
  destruct (length found =? 0)%nat eqn:Hzero.
  { apply Nat.eqb_eq in Hzero. lia. }
  destruct (hide (comp w) && autoHide p);
    eexists _, k, h; (split_and!; [reflexivity|done|done|done|done]).
Qed.

Lemma requery_headings_selects_among_found_witness :
  ∃ w' k h,
    requery_headings sample_props sample_world = Returned w'
    ∧ is_active_index sample_props (browser sample_world) [10; 11; 12] k
    ∧ [10; 11; 12] !! k = Some h
    ∧ activeHeading (comp w') = Some h
    ∧ activeTocLi (comp w') = mjoin (tocItems (comp sample_world) !! k).
Proof.
  apply (requery_headings_selects_among_found sample_props sample_world
           sample_document [10; 11; 12]); [reflexivity | reflexivity | discriminate].
Defined.

Lemma set_headings_same (c : Comp) : set_headings (headings c) c = c.
Proof. by destruct c. Qed.

(** The loop reads the layout only through [getBoundingClientRect]. *)
Lemma set_active_heading_layout (p : Props) (b b' : Browser) (c : Comp) :
  rect_top b' = rect_top b →
  set_active_heading p b' c = set_active_heading p b c.
Proof.
  intros Hrect. unfold set_active_heading.
  induction (length (headings c)) as [|n IH]; simpl; [reflexivity|].
  destruct (headings c !! n); [|reflexivity].
  unfold scrolled_past. by rewrite Hrect, IH.
Qed.

(** Assigning [hide] before or after the loop makes no difference. *)
Lemma set_active_heading_set_hide
    (p : Props) (b : Browser) (v : bool) (c : Comp) :
  set_active_heading p b (set_hide v c) = set_hide v (set_active_heading p b c).
Proof.
  unfold set_active_heading. simpl.
  induction (length (headings c)) as [|n IH]; simpl; [reflexivity|].
  destruct (headings c !! n) as [h|]; [|reflexivity].
  by destruct (scrolled_past p b h || (n =? 0)%nat).
Qed.

Lemma set_active_heading_again (p : Props) (b : Browser) (c : Comp) :
  set_active_heading p b (set_active_heading p b c) = set_active_heading p b c.
Proof.
  unfold set_active_heading.
  destruct (loop_cases p b (length (headings c)) c)
    as [[Hsame _]|(x & y & Hset & Hagain)].
  - by rewrite !Hsame.
  - rewrite Hset. simpl. apply Hagain.
Qed.

(** What [requery_headings] returns when the selector matches [found]. *)
Lemma requery_headings_found
    (p : Props) (w : World) (d : Document) (found : list node) :
  document (browser w) = Some d →
  querySelectorAll d (headingSelector p) = Ok found →
  requery_headings p w
  = Returned
      {| comp :=
           (let c := set_active_heading p (browser w)
                       (set_headings found (comp w)) in
            if bool_decide (found = []) then
              if autoHide p then set_hide true c else c
            else if hide (comp w) && autoHide p then set_hide false c else c);
         browser :=
           (if bool_decide (found = []) && warnOnEmpty p
            then console_warn (empty_warning p) (browser w)
            else browser w) |}.
Proof.
  intros Hdoc Hquery. unfold requery_headings. rewrite Hdoc, Hquery.
  destruct (set_active_heading_headings p (browser w)
              (set_headings found (comp w))) as [Hhs Hhide].
  simpl in Hhs, Hhide. rewrite Hhs, Hhide.
  destruct found as [|h found]; simpl.
  - by destruct (warnOnEmpty p).
  - by destruct (hide (comp w) && autoHide p).
Qed.

(** Calling [requery_headings] a second time right after the first, on
    an unchanged page, changes no component variable.  The second call is
    silent when headings were found; on a page without headings it repeats
    the warning when [warnOnEmpty] is set. *)
Theorem requery_headings_twice
    (p : Props) (w : World) (d : Document) (found : list node) :
  document (browser w) = Some d →
  querySelectorAll d (headingSelector p) = Ok found →
  ∃ w1 w2,
    requery_headings p w = Returned w1
    ∧ requery_headings p w1 = Returned w2
    ∧ comp w2 = comp w1
    ∧ console (browser w2)
      = (if bool_decide (found = []) && warnOnEmpty p
         then console (browser w1) ++ [empty_warning p]
         else console (browser w1)).
Proof.
  intros Hdoc Hquery.
  eexists _, _.
  split; [exact (requery_headings_found p w d found Hdoc Hquery)|].
  split.
  { apply (requery_headings_found p _ d found); [|exact Hquery]. simpl.
    by destruct (bool_decide (found = []) && warnOnEmpty p). }
  simpl.
  set (b1 := if bool_decide (found = []) && warnOnEmpty p
             then console_warn (empty_warning p) (browser w)
             else browser w).
  assert (rect_top b1 = rect_top (browser w)) as Hrect
    by (subst b1; by destruct (bool_decide (found = []) && warnOnEmpty p)).
  set (c1 := set_active_heading p (browser w) (set_headings found (comp w))).
  assert (headings c1 = found ∧ hide c1 = hide (comp w)) as [Hhs1 Hhide1]
    by apply (set_active_heading_headings p (browser w)
                (set_headings found (comp w))).
  assert (set_active_heading p b1 (set_headings found c1) = c1) as Hc1.
  { rewrite <- Hhs1 at 1. rewrite set_headings_same.
    rewrite (set_active_heading_layout p _ _ _ Hrect).
    apply set_active_heading_again. }
  assert (∀ v, set_active_heading p b1 (set_headings found (set_hide v c1))
               = set_hide v c1) as Hhidden.
  { intros v.
    change (set_headings found (set_hide v c1))
      with (set_hide v (set_headings found c1)).
    by rewrite set_active_heading_set_hide, Hc1. }
  split.
  - destruct (bool_decide (found = [])).
    + destruct (autoHide p); [by rewrite Hhidden | by rewrite Hc1].
    + destruct (hide (comp w) && autoHide p) eqn:Hcond.
      * by rewrite Hhidden.
      * by rewrite Hc1, Hhide1, Hcond.
  - subst b1. by destruct (bool_decide (found = []) && warnOnEmpty p).
Qed.

Lemma requery_headings_twice_witness :
  ∃ w1 w2,
    requery_headings sample_props emptied_world = Returned w1
    ∧ requery_headings sample_props w1 = Returned w2
    ∧ comp w2 = comp w1
    ∧ console (browser w2)
      = (if bool_decide (@nil node = []) && warnOnEmpty sample_props
         then console (browser w1) ++ [empty_warning sample_props]
         else console (browser w1)).
Proof.
  apply (requery_headings_twice sample_props emptied_world bare_document []);
    reflexivity.
Defined.

Lemma requery_headings_throws_iff_witness :
  let p := {|
    activeHeadingScrollOffset := Fin 100;
    breakpoint := Fin 1000;
    flashClickedHeadingsFor := Fin 1500;
    getHeadingIds := Some sample_ids;
    headingSelector := "h2[";
    autoHide := true;
    keepActiveTocItemInView := true;
    minItems := Fin 0;
    scrollBehavior := Smooth;
    warnOnEmpty := true
  |} in
  requery_headings p sample_world
  = Thrown "SyntaxError: 'h2[' is not a valid selector" sample_world.
Proof.
  intros p.
  apply (proj2 (requery_headings_throws_iff p sample_world) sample_document);
    reflexivity.
Defined.

(** ** More on [onMount] *)

(** [onMount] returns only with [pageBody] an element, the one passed in
    or the first match of the selector, and has then registered exactly
    one mutation observer, on that element.  Whenever it throws (no
    document, a selector that does not parse or matches nothing, a [null]
    page body) it has registered none and left the browser as it was. *)
Theorem onMount_observes_page_body (w : World) :
  match onMount w with
  | Returned w' =>
    ∃ el,
      pageBody (comp w') = PageBodyElement el
      ∧ observers (browser w') = observers (browser w) ++ [el]
      ∧ (pageBody (comp w) = PageBodyElement el
         ∨ ∃ selector d,
             pageBody (comp w) = PageBodySelector selector
             ∧ document (browser w) = Some d
             ∧ querySelector d selector = Ok (Some el))
  | Thrown _ w' => browser w' = browser w
  end.
Proof.
  unfold onMount.
  destruct (pageBody (comp w)) as [selector|el|] eqn:Hbody.
  - destruct (document (browser w)) as [d|] eqn:Hdoc; [|reflexivity].
    destruct (querySelector d selector) as [[el|]|e] eqn:Hq; simpl;
      [|reflexivity..].
    exists el. split_and!; [reflexivity..|]. right. by exists selector, d.
  - simpl. rewrite Hbody. exists el. split_and!; simpl; [done|done|by left].
  - simpl. by rewrite Hbody.
Qed.

(** ** More on the listeners of the window *)

Lemma window_frame_refl (w : World) : window_frame w w.
Proof. unfold window_frame. split_and!; done. Qed.

Lemma window_frame_trans (w1 w2 w3 : World) :
  window_frame w1 w2 → window_frame w2 w3 → window_frame w1 w3.
Proof.
  unfold window_frame. intros H12 H23.
  destruct_and!. split_and!; try congruence. auto.
Qed.

Lemma window_event_frame (p : Props) (ev : WindowEvent) (w : World) :
  window_frame w (window_event p ev w).
Proof.
  destruct ev as [| |target|innerWidth]; simpl.
  - unfold on_scroll, window_frame. simpl.
    destruct (set_active_heading_assigns p (browser w) (comp w))
      as (x & y & ->).
    split_and!; done.
  - unfold on_scrollend, scroll_to_active_toc_item, window_frame.
    destruct (keepActiveTocItemInView p); simpl; [|split_and!; done].
    destruct (activeTocLi (comp w)) eqn:Hli, (nav (comp w)) eqn:Hnav; simpl;
      try (split_and!; done).
    unfold scrollTo. simpl.
    destruct (has_scrollTo (browser w)); simpl; split_and!; done.
  - unfold window_frame.
    destruct (aside (comp w)) as [a|] eqn:Haside; simpl;
      [destruct (contains (browser w) a target); simpl|];
      split_and!; done.
  - unfold window_frame. simpl.
    destruct (safe_not_equal (window_width (comp w)) (Some innerWidth));
      simpl; split_and!; done.
Qed.

(** No sequence of [scroll], [scrollend], [click] and [resize] events on
    the window opens the panel, replaces the headings, hides or shows the
    panel, logs, touches a class list, the location, a timer or an
    observer, or scrolls the document. *)
Theorem window_events_frame
    (p : Props) (evs : list WindowEvent) (w : World) :
  window_frame w (window_events p evs w).
Proof.
  unfold window_events. revert w.
  induction evs as [|ev evs IH]; intros w; simpl.
  - apply window_frame_refl.
  - eapply window_frame_trans; [apply window_event_frame | apply IH].
Qed.

Lemma active_item_scroll_length
    (p : Props) (behavior : ScrollBehavior) (w : World) :
  length (active_item_scroll p behavior w) ≤ 1.
Proof.
  unfold active_item_scroll.
  destruct (_ && _); [|simpl; lia].
  destruct (activeTocLi (comp w)), (nav (comp w)); simpl; lia.
Qed.

(** The list of the panel is scrolled at most once for each [scrollend]
    event, and by no other event on the window. *)
Theorem window_events_scroll_count
    (p : Props) (evs : list WindowEvent) (w : World) :
  length (scrollTo_calls (browser (window_events p evs w)))
  ≤ length (scrollTo_calls (browser w))
    + length (filter (λ ev, is_ScrollEnd ev = true) evs).
Proof.
  unfold window_events. revert w.
  induction evs as [|ev evs IH]; intros w; simpl; [lia|].
  specialize (IH (window_event p ev w)).
  assert (length (scrollTo_calls (browser (window_event p ev w)))
          ≤ length (scrollTo_calls (browser w))
            + (if is_ScrollEnd ev then 1 else 0)) as Hstep.
  { destruct ev as [| |target|innerWidth]; simpl; try lia.
    - unfold on_scrollend.
      destruct (scroll_to_active_toc_item_calls p Smooth
                  (with_browser scroll_finished w)) as (-> & _).
      rewrite length_app. simpl.
      pose proof (active_item_scroll_length p Smooth
                    (with_browser scroll_finished w)). simpl in *. lia.
    - unfold close.
      destruct (aside (comp w)) as [a|]; simpl;
        [destruct (contains (browser w) a target); simpl|]; lia. }
  destruct (is_ScrollEnd ev) eqn:Hev.
  - rewrite filter_cons_True by done. simpl. lia.
  - rewrite filter_cons_False by (rewrite Hev; done). lia.
Qed.

(** ** The levels of the entries *)

Lemma Qlt_bool_false (x y : Q) : Qlt_bool x y = false ↔ Qle y x.
Proof.
  rewrite <- not_true_iff_false, Qlt_bool_iff. split.
  - apply Qnot_lt_le.
  - intros Hle Hlt. exact (Qlt_not_le _ _ Hlt Hle).
Qed.

(** On numbers other than NaN, "not less than" is transitive. *)
Lemma number_ltb_false_trans (x y z : number) :
  x ≠ NaN → y ≠ NaN → z ≠ NaN →
  number_ltb x y = false → number_ltb y z = false → number_ltb x z = false.
Proof.
  destruct x as [| |a|], y as [| |b|], z as [| |c|]; simpl;
    try done.
  intros _ _ _. rewrite !Qlt_bool_false. intros Hba Hcb.
  exact (Qle_trans _ _ _ Hcb Hba).
Qed.

Lemma number_ltb_asym (x y : number) :
  number_ltb x y = true → number_ltb y x = false.
Proof.
  destruct x as [| |a|], y as [| |b|]; simpl; try done.
  rewrite Qlt_bool_iff, Qlt_bool_false. apply Qlt_le_weak.
Qed.

Lemma number_ltb_irrefl (x : number) : number_ltb x x = false.
Proof.
  destruct x as [| |a|]; simpl; try done.
  apply Qlt_bool_false, Qle_refl.
Qed.

Lemma Math_min_least (xs : list number) :
  (∀ l, l ∈ xs → l ≠ NaN) →
  Math_min xs ≠ NaN
  ∧ (xs ≠ [] → Math_min xs ∈ xs)
  ∧ (∀ l, l ∈ xs → number_ltb l (Math_min xs) = false).
Proof.
  induction xs as [|x xs IH]; intros Hnan; simpl.
  - split_and!; [done|done|]. intros l Hl. by apply elem_of_nil in Hl.
  - destruct IH as (Hm & Hin & Hleast).
    { intros l Hl. apply Hnan. by right. }
    assert (x ≠ NaN) as Hx by (apply Hnan; by left).
    assert (number_min x (Math_min xs)
            = if number_ltb (Math_min xs) x then Math_min xs else x) as ->.
    { unfold number_min. destruct x, (Math_min xs); done. }
    destruct (number_ltb (Math_min xs) x) eqn:Hlt.
    + split_and!; [done| |].
      * intros _. right. apply Hin. intros ->. simpl in Hlt.
        by destruct x.
      * intros l [->|Hl]%elem_of_cons; [by apply number_ltb_asym|].
        by apply Hleast.
    + split_and!; [done|by left|].
      intros l [->|Hl]%elem_of_cons; [apply number_ltb_irrefl|].
      apply (number_ltb_false_trans l (Math_min xs) x); try done.
      * apply Hnan. by right.
      * by apply Hleast.
Qed.

(** With at least one heading and no level NaN, [minLevel] is the level
    of one of the headings and no heading has a smaller level. *)
Theorem minLevel_is_least_level
    (getHeadingLevels : node → number) (c : Comp) :
  headings c ≠ [] →
  (∀ h, h ∈ headings c → getHeadingLevels h ≠ NaN) →
  (∃ h, h ∈ headings c ∧ minLevel getHeadingLevels c = getHeadingLevels h)
  ∧ (∀ h, h ∈ headings c →
       number_ltb (getHeadingLevels h) (minLevel getHeadingLevels c) = false).
Proof.
  intros Hne Hnan. unfold minLevel, levels.
  destruct (Math_min_least (map getHeadingLevels (headings c)))
    as (_ & Hin & Hleast).
  { intros l (h & -> & Hh)%list_elem_of_fmap. by apply Hnan. }
  split.
  - destruct (proj1 (list_elem_of_fmap _ _ _)
                (Hin ltac:(by destruct (headings c)))) as (h & Heq & Hh).
    by exists h.
  - intros h Hh. apply Hleast. apply list_elem_of_fmap. by exists h.
Qed.

Lemma minLevel_is_least_level_witness :
  let level := fun n : node => number_of_nat (n - 8) in
  (∃ h, h ∈ headings sample_comp ∧ minLevel level sample_comp = level h)
  ∧ (∀ h, h ∈ headings sample_comp →
       number_ltb (level h) (minLevel level sample_comp) = false).
Proof.
  intros level.
  apply (minLevel_is_least_level level sample_comp); [discriminate|].
  intros h _. discriminate.
Defined.

(** One heading whose level is NaN makes [minLevel] NaN, wherever it
    stands; without headings [minLevel] is [Infinity]. *)
Theorem minLevel_NaN (getHeadingLevels : node → number) (c : Comp) :
  (headings c = [] → minLevel getHeadingLevels c = PosInf)
  ∧ (∀ h, h ∈ headings c → getHeadingLevels h = NaN →
       minLevel getHeadingLevels c = NaN).
Proof.
  unfold minLevel, levels. split; [by intros ->|].
  intros h Hh Hnan.
  induction (headings c) as [|x xs IH]; [by apply elem_of_nil in Hh|].
  simpl. apply elem_of_cons in Hh as [<-|Hh].
  - by rewrite Hnan.
  - rewrite (IH Hh). by destruct (getHeadingLevels x).
Qed.
